(** * Incremental warehouse loading: the orchestrator and its dispatcher

    A shallow embedding of the two cloud functions of the repository,

    - [functions/load-data/bq-load-file/main.py]  (module [LoadFile]),
    - [functions/load-data/bq-start-load/main.py] (module [StartLoad]),

    and the properties of the debounce guard, the mode decision, the file
    selection, the watermark commit and the fan-out that the design
    document states about them.

    Modelling conventions, shared by both modules:

    - a [datetime] is the integer number of microseconds since the epoch,
      the process running in UTC (so that the naive [datetime.utcnow()]
      and the datetimes the datastore hands back are on one scale);
      [dt.timestamp()] is that number read in seconds, exactly, so
      comparing two timestamps is comparing the integers, and
      [int(dt.timestamp())] is the quotient by 10^6 rounded towards zero;
    - the values of a JSON body and of a datastore entity are scalars;
    - a Python function that may raise is a computation in the monad [M]:
      it maps a world to an [outcome] (a value or a raised exception)
      and the world it leaves behind (what was written before a raise stays
      written);
    - exceptions are kept by class, their messages are not tracked;
    - the SDK clients (datastore, object store, warehouse, queue, token
      service, clock) are the fields of an environment record; their
      calls are appended to the world's trace;
    - logging has no effect on the results and is left out. *)

From stdpp Require Import gmap strings list.
From Stdlib Require Import ZArith.

Local Open Scope Z_scope.
Local Open Scope string_scope.
Local Open Scope list_scope.

(** ** Python values, outcomes and exceptions *)

(** The scalar values a parsed JSON body or a datastore entity holds. *)
Inductive value : Type :=
| VNone
| VBool (b : bool)
| VInt (n : Z)
| VStr (s : string)
| VTime (t : Z).

(** Python truthiness ([if v:]). *)
Definition truthy (v : value) : bool :=
  match v with
  | VNone => false
  | VBool b => b
  | VInt n => negb (Z.eqb n 0)
  | VStr s => negb (String.eqb s "")
  | VTime _ => true
  end.

(** [v is True]. *)
Definition is_True (v : value) : bool :=
  match v with VBool true => true | _ => false end.

(** The exception classes the code meets; [ExternalError] stands for
    whatever a call of an SDK client raises. *)
Inductive exn : Type :=
| AttributeError
| ValueError
| FileNotFoundError
| ExternalError.

Inductive outcome (A : Type) : Type :=
| Ok (a : A)
| Raise (e : exn).
Arguments Ok {A} a.
Arguments Raise {A} e.

(** [timedelta(minutes=m)], in microseconds. *)
Definition timedelta_minutes (m : Z) : Z := m * 60 * 1000000.

(** [int(dt.timestamp())]: whole seconds, rounded towards zero. *)
Definition int_timestamp (t : Z) : Z := Z.quot t 1000000.

(** [dt.timestamp()]; only a datetime has the method. *)
Definition timestamp (v : value) : outcome Z :=
  match v with
  | VTime t => Ok t
  | _ => Raise AttributeError
  end.

(** ** The monads of the code *)

(** Code that only reads its arguments and the collaborators' documents. *)
#[export] Instance outcome_ret : MRet outcome := λ A a, Ok a.
#[export] Instance outcome_bind : MBind outcome := λ A B f o,
  match o with
  | Ok a => f a
  | Raise e => Raise e
  end.
#[export] Instance outcome_fmap : FMap outcome := λ A B f o,
  match o with
  | Ok a => Ok (f a)
  | Raise e => Raise e
  end.

(** Code that also changes a world of type [W]. *)
Definition St (W A : Type) : Type := W → outcome A * W.

#[export] Instance St_ret {W} : MRet (St W) := λ A a w, (Ok a, w).
#[export] Instance St_bind {W} : MBind (St W) := λ A B f m w,
  match m w with
  | (Ok a, w') => f a w'
  | (Raise e, w') => (Raise e, w')
  end.
#[export] Instance St_fmap {W} : FMap (St W) := λ A B f m w,
  match m w with
  | (Ok a, w') => (Ok (f a), w')
  | (Raise e, w') => (Raise e, w')
  end.

Definition lift {W A : Type} (o : outcome A) : St W A := λ w, (o, w).

(** [try: m  except Exception as e: h e]. *)
Definition try_except {W A : Type} (m : St W A) (h : exn → St W A) : St W A := λ w,
  match m w with
  | (Ok a, w') => (Ok a, w')
  | (Raise e, w') => h e w'
  end.

(** * The load orchestrator ([bq-load-file/main.py]) *)

Module LoadFile.

(** ** Data *)

(** A listed object of the object store: [blob.name], [blob.updated]. *)
Record Blob : Type := { name : string; updated : Z }.

(** The job's entry of [config/config.json], with the types the
    orchestrator uses its keys at. *)
Record Config : Type := {
  blob_prefix : string;
  schema_file_location : option string;
  storage_bucket : string;
  destination_table_id : string;
  file_type : string;
  hive_partitioning : option string;
  create_behavior : option string;
  write_behavior : option string;
  extra_kwargs : list (string * string)
}.

(** [blobs_to_load] is either one string (the wildcard pattern) or a list
    of strings. *)
Inductive uris : Type :=
| Pattern (s : string)
| Files (l : list string).

(** [len(blobs_to_load)]. *)
Definition len (u : uris) : nat :=
  match u with
  | Pattern s => String.length s
  | Files l => length l
  end.

(** The arguments of [load_files_to_biquery]. *)
Record LoadArgs : Type := {
  list_file_names : uris;
  schema : option string;
  arg_file_type : string;
  arg_destination_table_id : string;
  arg_hive_partitioning : option string;
  arg_create_behavior : option string;
  arg_write_behavior : option string;
  kwargs : list (string * string)
}.

Inductive SourceFormat : Type := NEWLINE_DELIMITED_JSON | CSV.

(** What reaches the warehouse: [load_table_from_uri] and its job config. *)
Record LoadJob : Type := {
  source_uris : uris;
  destination : string;
  location : string;
  source_format : SourceFormat;
  job_schema : option string;
  create_disposition : option string;
  write_disposition : option string;
  job_hive_partitioning : option string;
  job_kwargs : list (string * string)
}.

(** [load_job.result()]: the fields the orchestrator logs. *)
Record LoadResult : Type := { output_rows : Z; input_files : Z }.

(** The parsed request body: [request.get_json(silent=True)] is [None]
    when the body does not parse, otherwise the parsed JSON, which is an
    object (a dict) or something else (a list, a string, a number). *)
Inductive json_body : Type :=
| JObject (d : gmap string value)
| JOther.

Record Request : Type := { get_json : option json_body }.

(** What [start_file_load] hands back: [None], a string or, for a
    rejected disposition, the exception object itself. *)
Inductive response : Type :=
| RNone
| RStr (s : string)
| RExn (e : exn).

(** ** The world *)

Inductive event : Type :=
| EvGet (job_name : string)
| EvPut (job_name : string) (entity : gmap string value)
| EvListBlobs (bucket prefix : string)
| EvLoad (args : LoadArgs) (result : outcome LoadResult).

(** The datastore kind [data-pipelines] (one entity per job name), the
    number of clock readings taken so far, and the calls made. *)
Record World : Type := {
  datastore : gmap string (gmap string value);
  clock_reads : nat;
  trace : list event
}.

(** The collaborators of one deployment. *)
Record Env : Type := {
  (* datetime.utcnow(), by reading number *)
  clock : nat → Z;
  (* gs://GLOBAL_STORAGE_BUCKET/config/config.json: absent, or the result
     of downloading and parsing it *)
  config_file : option (outcome (gmap string Config));
  (* the attribute names of the two disposition classes *)
  CreateDisposition : string → bool;
  WriteDisposition : string → bool;
  (* STORAGE_CLIENT.list_blobs(bucket, prefix=prefix) *)
  bucket_listing : string → string → list Blob;
  (* a blob of the global bucket by path: absent, or the result of
     downloading it and reading it as a schema *)
  schema_file : string → option (outcome string);
  (* client.load_table_from_uri(...).result() *)
  load_table_from_uri : LoadJob → outcome LoadResult
}.

Abbreviation M := (St World).

Definition emit (ev : event) : M unit := λ w,
  (Ok tt, {| datastore := datastore w; clock_reads := clock_reads w;
             trace := trace w ++ [ev] |}).

Section Orchestrator.

Context (env : Env).

(** [datetime.utcnow()]. *)
Definition utcnow : M Z := λ w,
  (Ok (clock env (clock_reads w)),
   {| datastore := datastore w; clock_reads := S (clock_reads w);
      trace := trace w |}).

(** ** The functions of the source *)

Definition get_last_modified_time (entity : option (gmap string value)) : value :=
  match entity with
  | Some e => default VNone (e !! "last_modified_time")
  | None => VNone
  end.

Definition get_entity (job_name : string) : M (option (gmap string value)) := λ w,
  (Ok (datastore w !! job_name),
   {| datastore := datastore w; clock_reads := clock_reads w;
      trace := trace w ++ [EvGet job_name] |}).

(** [DATASTORE_CLIENT.put(entity)]. *)
Definition put (job_name : string) (entity : gmap string value) : M unit := λ w,
  (Ok tt,
   {| datastore := <[job_name := entity]> (datastore w);
      clock_reads := clock_reads w;
      trace := trace w ++ [EvPut job_name entity] |}).

Definition set_entity_item (job_name key : string) (v : value) : M bool :=
  entity ← get_entity job_name;
  let entity :=
    match entity with
    | None => ∅
    | Some e => e
    end in
  let entity := <[key := v]> entity in
  _ ← put job_name entity;
  mret true.

(** The loop of [list_blobs], over the blobs still to visit. *)
Fixpoint list_blobs_loop (bucket_name : string) (tsAfter : value)
    (blobs : list Blob) (list_of_blobs : list string) : outcome (list string) :=
  match blobs with
  | [] => Ok list_of_blobs
  | blob :: blobs =>
    after ← timestamp tsAfter;
    if Z.gtb (int_timestamp (updated blob)) (int_timestamp after)
    then list_blobs_loop bucket_name tsAfter blobs
           (list_of_blobs ++ ["gs://" +:+ bucket_name +:+ "/" +:+ name blob])
    else list_blobs_loop bucket_name tsAfter blobs list_of_blobs
  end.

Definition list_blobs (bucket_name prefix : string) (tsAfter : value) : M (list string) :=
  _ ← emit (EvListBlobs bucket_name prefix);
  lift (list_blobs_loop bucket_name tsAfter (bucket_listing env bucket_name prefix) []).

(** [json.loads(blob_string).get(job_name)]: the document's keys are
    strings, so a job name that is not a string finds nothing. *)
Definition get_config (job_name : value) : outcome Config :=
  match config_file env with
  | None => Raise FileNotFoundError
  | Some blob =>
    document ← blob;
    let return_json :=
      match job_name with
      | VStr j => document !! j
      | _ => None
      end in
    match return_json with
    | None => Raise ValueError
    | Some config => Ok config
    end
  end.

Definition get_schema (schema_file_location : string) : outcome string :=
  match schema_file env ("bq-schemas/" +:+ schema_file_location) with
  | None => Raise FileNotFoundError
  | Some return_schema => return_schema
  end.

(** The body of [load_files_to_biquery]; it touches nothing but the
    warehouse. *)
Definition load_job_result (a : LoadArgs) : outcome LoadResult :=
  source_format ←
    (if String.eqb (arg_file_type a) "json" then Ok NEWLINE_DELIMITED_JSON
     else if String.eqb (arg_file_type a) "csv" then Ok CSV
     else Raise ValueError);
  load_table_from_uri env
    {| source_uris := list_file_names a;
       destination := arg_destination_table_id a;
       location := "US";
       source_format := source_format;
       job_schema := schema a;
       create_disposition := arg_create_behavior a;
       write_disposition := arg_write_behavior a;
       job_hive_partitioning := arg_hive_partitioning a;
       job_kwargs := kwargs a |}.

(** A call of the loader, entered in the trace with what came of it. *)
Definition load_files_to_biquery (a : LoadArgs) : M LoadResult :=
  _ ← emit (EvLoad a (load_job_result a));
  lift (load_job_result a).

(** [request_json.get(key, default)]: only a dict has the method. *)
Definition request_get (request_json : option json_body) (key : string)
    (dflt : value) : outcome value :=
  match request_json with
  | Some (JObject d) => Ok (default dflt (d !! key))
  | _ => Raise AttributeError
  end.

(** [getattr(cls, name)] inside [try ... except AttributeError as e]:
    the exception caught, if any. *)
Definition getattr_fails (cls : string → bool) (attr : string) : option exn :=
  if cls attr then None else Some AttributeError.

(** Lines 99 to 110 of [start_file_load]: the debounce guard and the mode
    decision. [None] stands for the [return None] of a rejected run,
    [Some backfill_flag] for a run that goes on. *)
Definition debounce (request_json : option json_body) (current_time : Z)
    (last_modified_time last_attempted_grab : value) : outcome (option value) :=
  if truthy last_modified_time && truthy last_attempted_grab then
    backfill_flag ← request_get request_json "backfill" (VBool false);
    attempted ← timestamp last_attempted_grab;
    if Z.gtb attempted (current_time - timedelta_minutes 5)
    then Ok None
    else Ok (Some backfill_flag)
  else Ok (Some (VBool true)).

(** Lines 112 to 155 of [start_file_load]: the accepted run. *)
Definition load_accepted (job_name : string) (config : Config)
    (current_time : Z) (last_modified_time backfill_flag : value) : M response :=
  now ← utcnow;
  _ ← set_entity_item job_name "last_attempted_grab" (VTime now);
  blobs_to_load ←
    (if is_True backfill_flag
     then mret (Pattern ("gs://" +:+ storage_bucket config +:+ "/"
                           +:+ blob_prefix config +:+ "*"))
     else Files <$> list_blobs (storage_bucket config) (blob_prefix config)
                      last_modified_time);
  if Nat.eqb (len blobs_to_load) 0
  then mret (RStr ("There are no new blobs to load for " +:+ job_name))
  else
  schema ←
    lift (match schema_file_location config with
          | Some l => if negb (String.eqb l "") then Some <$> get_schema l
                      else Ok None
          | None => Ok None
          end);
  loaded ←
    try_except
      (_ ← load_files_to_biquery
             {| list_file_names := blobs_to_load;
                schema := schema;
                arg_file_type := file_type config;
                arg_destination_table_id := destination_table_id config;
                arg_hive_partitioning := hive_partitioning config;
                arg_create_behavior := create_behavior config;
                arg_write_behavior := write_behavior config;
                kwargs := extra_kwargs config |};
       mret true)
      (λ e, mret false);
  if negb loaded then mret RNone
  else
  _ ← set_entity_item job_name "last_modified_time" (VTime current_time);
  mret (RStr ("Success for " +:+ job_name)).

Definition start_file_load (request : Request) : M response :=
  let request_json := get_json request in
  job_name ← lift (request_get request_json "job_name" VNone);
  match job_name with
  | VNone => mret (RStr "Please include job_name in request json.")
  | _ =>
  current_time ← utcnow;
  config ← lift (get_config job_name);
  match job_name with
  | VStr job_name =>
  match create_behavior config ≫= getattr_fails (CreateDisposition env) with
  | Some e => mret (RExn e)
  | None =>
  match write_behavior config ≫= getattr_fails (WriteDisposition env) with
  | Some e => mret (RExn e)
  | None =>
  entity ← get_entity job_name;
  let last_attempted_grab :=
    match entity with
    | Some e => default VNone (e !! "last_attempted_grab")
    | None => VNone
    end in
  let last_modified_time := get_last_modified_time entity in
  guard ← lift (debounce request_json current_time
                  last_modified_time last_attempted_grab);
  match guard with
  | None => mret RNone
  | Some backfill_flag =>
    load_accepted job_name config current_time last_modified_time backfill_flag
  end
  end
  end
  | _ =>
    (* not reached: [get_config] resolves string job names only *)
    lift (Raise ValueError)
  end
  end.


(** ** Vocabulary of the properties *)

(** A request that reaches the guard: its body is the dict [d], which
    names the job [job_name], whose configuration [config] resolves and
    carries dispositions that pass the validation. *)
Definition resolves (request : Request) (d : gmap string value)
    (job_name : string) (config : Config) : Prop :=
  get_json request = Some (JObject d) ∧
  d !! "job_name" = Some (VStr job_name) ∧
  get_config (VStr job_name) = Ok config ∧
  create_behavior config ≫= getattr_fails (CreateDisposition env) = None ∧
  write_behavior config ≫= getattr_fails (WriteDisposition env) = None.

(** [last_attempted_grab] as [start_file_load] reads it off the entity. *)
Definition last_attempted_of (entity : option (gmap string value)) : value :=
  match entity with
  | Some e => default VNone (e !! "last_attempted_grab")
  | None => VNone
  end.

(** The world at the guard: the clock was read once and the job's entity
    was fetched. *)
Definition at_guard (job_name : string) (w : World) : World :=
  {| datastore := datastore w; clock_reads := S (clock_reads w);
     trace := trace w ++ [EvGet job_name] |}.

(** The record [set_entity_item] writes back. *)
Definition updated_record (job_name key : string) (v : value) (w : World)
    : gmap string value :=
  <[key := v]> (default ∅ (datastore w !! job_name)).

(** The world once the attempt stamp is written: the clock was read again
    and [set_entity_item] has run. *)
Definition stamped (job_name : string) (w : World) : World :=
  let record :=
    updated_record job_name "last_attempted_grab"
      (VTime (clock env (clock_reads w))) w in
  {| datastore := <[job_name := record]> (datastore w);
     clock_reads := S (clock_reads w);
     trace := trace w ++ [EvGet job_name; EvPut job_name record] |}.

Definition with_events (w : World) (evs : list event) : World :=
  {| datastore := datastore w; clock_reads := clock_reads w;
     trace := trace w ++ evs |}.

(** The wildcard pattern of a backfill. *)
Definition wildcard (config : Config) : string :=
  "gs://" +:+ storage_bucket config +:+ "/" +:+ blob_prefix config +:+ "*".

(** The selection of an accepted run and the events it leaves. *)
Definition selection (config : Config) (last_modified_time backfill_flag : value)
    : outcome uris * list event :=
  if is_True backfill_flag
  then (Ok (Pattern (wildcard config)), [])
  else (Files <$> list_blobs_loop (storage_bucket config) last_modified_time
                    (bucket_listing env (storage_bucket config) (blob_prefix config)) [],
        [EvListBlobs (storage_bucket config) (blob_prefix config)]).

(** The schema an accepted run loads with. *)
Definition schema_of (config : Config) : outcome (option string) :=
  match schema_file_location config with
  | Some l => if negb (String.eqb l "") then Some <$> get_schema l else Ok None
  | None => Ok None
  end.

(** The arguments an accepted run calls the loader with. *)
Definition load_args (config : Config) (blobs_to_load : uris)
    (schema : option string) : LoadArgs :=
  {| list_file_names := blobs_to_load;
     schema := schema;
     arg_file_type := file_type config;
     arg_destination_table_id := destination_table_id config;
     arg_hive_partitioning := hive_partitioning config;
     arg_create_behavior := create_behavior config;
     arg_write_behavior := write_behavior config;
     kwargs := extra_kwargs config |}.

(** The world an accepted run reaches with the loader's answer: the
    attempt stamp, the events [evs] of the selection, the loader call. *)
Definition loaded (job_name : string) (w : World) (evs : list event)
    (a : LoadArgs) (result : outcome LoadResult) : World :=
  with_events (stamped job_name (at_guard job_name w))
    (evs ++ [EvLoad a result]).

(** The world after the watermark is committed on top of [wl]. *)
Definition committed (job_name : string) (current_time : Z) (wl : World) : World :=
  let record :=
    updated_record job_name "last_modified_time" (VTime current_time) wl in
  {| datastore := <[job_name := record]> (datastore wl);
     clock_reads := clock_reads wl;
     trace := trace wl ++ [EvGet job_name; EvPut job_name record] |}.



End Orchestrator.

(** The events a run appends, from the world it starts in to the world it
    leaves. *)
Definition new_events (w w' : World) : list event :=
  drop (length (trace w)) (trace w').

(** A field of a job's persisted record. *)
Definition field (w : World) (job_name key : string) : option value :=
  datastore w !! job_name ≫= (λ record, record !! key).

(** The URI [list_blobs] builds for a blob. *)
Definition blob_uri (bucket_name : string) (blob : Blob) : string :=
  "gs://" +:+ bucket_name +:+ "/" +:+ name blob.

(** A blob is newer than the watermark, at the granularity of a second. *)
Definition newer_than (watermark : Z) (blob : Blob) : Prop :=
  int_timestamp watermark < int_timestamp (updated blob).

#[export] Instance newer_than_dec (watermark : Z) (blob : Blob) :
  Decision (newer_than watermark blob) :=
  Z.lt_dec (int_timestamp watermark) (int_timestamp (updated blob)).

(** ** A deployment to run the scenarios of the design document on *)

Module Scenario.

(** T0, and the clock: the first reading of a run is T0 + 10 minutes,
    each later reading one second on. *)
Definition T0 : Z := 1700000000000000.

Definition minutes (m : Z) : Z := timedelta_minutes m.

Definition orders : Config :=
  {| blob_prefix := "orders/";
     schema_file_location := Some "orders.json";
     storage_bucket := "landing";
     destination_table_id := "shop.raw.orders";
     file_type := "json";
     hive_partitioning := None;
     create_behavior := Some "CREATE_IF_NEEDED";
     write_behavior := Some "WRITE_APPEND";
     extra_kwargs := [] |}.

(** The same job with a file type the loader does not know. *)
Definition orders_parquet : Config :=
  {| blob_prefix := "orders/";
     schema_file_location := Some "orders.json";
     storage_bucket := "landing";
     destination_table_id := "shop.raw.orders";
     file_type := "parquet";
     hive_partitioning := None;
     create_behavior := Some "CREATE_IF_NEEDED";
     write_behavior := Some "WRITE_APPEND";
     extra_kwargs := [] |}.

(** The same job with a create disposition that does not exist. *)
Definition orders_bad_create : Config :=
  {| blob_prefix := "orders/";
     schema_file_location := Some "orders.json";
     storage_bucket := "landing";
     destination_table_id := "shop.raw.orders";
     file_type := "json";
     hive_partitioning := None;
     create_behavior := Some "CREATE_ALWAYS";
     write_behavior := Some "WRITE_APPEND";
     extra_kwargs := [] |}.

Definition old_blob : Blob := {| name := "orders/1.json"; updated := T0 - minutes 1 |}.
Definition new_blob : Blob := {| name := "orders/2.json"; updated := T0 + minutes 2 |}.

Definition deployment (loader : LoadJob → outcome LoadResult) : Env :=
  {| clock := λ n, T0 + minutes 10 + Z.of_nat n * 1000000;
     config_file :=
       Some (Ok (<["orders" := orders]>
                (<["orders_parquet" := orders_parquet]>
                 {["orders_bad_create" := orders_bad_create]})));
     CreateDisposition := λ s,
       bool_decide (s ∈ ["CREATE_IF_NEEDED"; "CREATE_NEVER"]);
     WriteDisposition := λ s,
       bool_decide (s ∈ ["WRITE_APPEND"; "WRITE_TRUNCATE"; "WRITE_EMPTY"]);
     bucket_listing := λ bucket prefix, [old_blob; new_blob];
     schema_file := λ path,
       if String.eqb path "bq-schemas/orders.json" then Some (Ok "[]") else None;
     load_table_from_uri := loader |}.

(** The warehouse accepts every load, or refuses every load. *)
Definition healthy : Env :=
  deployment (λ job, Ok {| output_rows := 10; input_files := 1 |}).
Definition failing : Env :=
  deployment (λ job, Raise ExternalError).

Definition body_for (job_name : string) : gmap string value :=
  {["job_name" := VStr job_name]}.

Definition request_for (job_name : string) : Request :=
  {| get_json := Some (JObject (body_for job_name)) |}.

(** No job has run yet. *)
Definition fresh : World :=
  {| datastore := ∅; clock_reads := 0; trace := [] |}.

(** The persisted state of a job whose last accepted run was at [t]. *)
Definition ran_at (t : Z) : gmap string value :=
  <["last_modified_time" := VTime t]> {["last_attempted_grab" := VTime t]}.

(** The job [orders] last ran at [t]. *)
Definition after_run_at (t : Z) : World :=
  {| datastore := {["orders" := ran_at t]}; clock_reads := 0; trace := [] |}.

(** A request for [orders] that asks for an incremental run in so many
    words. *)
Definition incremental_body : gmap string value :=
  <["backfill" := VBool false]> (body_for "orders").

Definition incremental_request : Request :=
  {| get_json := Some (JObject incremental_body) |}.

(** Scenario 1: no prior state, the warehouse accepts the load. *)
Definition first_run : outcome response * World :=
  start_file_load healthy (request_for "orders") fresh.

(** Scenario 2: watermark and attempt at T0, started ten minutes later. *)
Definition incremental_run : outcome response * World :=
  start_file_load healthy incremental_request (after_run_at T0).

(** Scenario 2 again, with a warehouse that refuses the load. *)
Definition refused_run : outcome response * World :=
  start_file_load failing incremental_request (after_run_at T0).

(** A first run of the job whose file type the loader does not know. *)
Definition parquet_run : outcome response * World :=
  start_file_load healthy (request_for "orders_parquet") fresh.

(** A request whose [job_name] is the JSON [null]. *)
Definition null_name_request : Request :=
  {| get_json := Some (JObject {["job_name" := VNone]}) |}.

(** A request for [orders] whose [backfill] is [v]. *)
Definition flagged_body (v : value) : gmap string value :=
  <["backfill" := v]> (body_for "orders").

Definition flagged_request (v : value) : Request :=
  {| get_json := Some (JObject (flagged_body v)) |}.

(** The flag is the number 1, not the boolean: the state of scenario 2. *)
Definition numeric_flag_run : outcome response * World :=
  start_file_load healthy (flagged_request (VInt 1)) (after_run_at T0).

(** The job names a schema file that is not in the bucket. *)
Definition orders_lost_schema : Config :=
  {| blob_prefix := "orders/";
     schema_file_location := Some "lost.json";
     storage_bucket := "landing";
     destination_table_id := "shop.raw.orders";
     file_type := "json";
     hive_partitioning := None;
     create_behavior := Some "CREATE_IF_NEEDED";
     write_behavior := Some "WRITE_APPEND";
     extra_kwargs := [] |}.

Definition lost_schema : Env :=
  {| clock := clock healthy;
     config_file := Some (Ok {["orders" := orders_lost_schema]});
     CreateDisposition := CreateDisposition healthy;
     WriteDisposition := WriteDisposition healthy;
     bucket_listing := bucket_listing healthy;
     schema_file := schema_file healthy;
     load_table_from_uri := load_table_from_uri healthy |}.

(** The job [orders] with an attempt stamp kept as text. *)
Definition text_stamp : World :=
  {| datastore :=
       {["orders" := <["last_modified_time" := VTime T0]>
                       {["last_attempted_grab" := VStr "2023-11-14"]}]};
     clock_reads := 0; trace := [] |}.

(** The run of scenario 2 that starts exactly five minutes after the
    last attempt. *)
Definition boundary_run : outcome response * World :=
  start_file_load healthy incremental_request (after_run_at (T0 + minutes 5)).

(** A deployment whose clock advances six minutes between readings. *)
Definition slow : Env :=
  {| clock := λ n, T0 + minutes 10 + Z.of_nat n * minutes 6;
     config_file := config_file healthy;
     CreateDisposition := CreateDisposition healthy;
     WriteDisposition := WriteDisposition healthy;
     bucket_listing := bucket_listing healthy;
     schema_file := schema_file healthy;
     load_table_from_uri := load_table_from_uri healthy |}.

Definition slow_run : outcome response * World :=
  start_file_load slow incremental_request (after_run_at T0).

End Scenario.

End LoadFile.

(** * The dispatcher ([bq-start-load/main.py]) *)

Module StartLoad.

(** ** Data *)

(** The task handed to the queue. [payload] is the dict that
    [json.dumps(payload).encode()] turns into the request body. *)
Record Task : Type := {
  http_method : string;
  url : string;
  headers : list (string * string);
  payload : list (string * string);
  schedule_time : Z
}.

(** The job name a task carries in its payload. *)
Definition task_job_name (task : Task) : option string :=
  snd <$> List.find (λ kv, String.eqb (fst kv) "job_name") (payload task).

(** The queue (each created task under its parent path) and the number
    of token requests, task requests and clock readings made so far. *)
Record World : Type := {
  queue : list (string * Task);
  token_requests : nat;
  task_requests : nat;
  clock_reads : nat
}.

(** The process environment and the collaborators. Strings are ASCII: a
    character of a Python string is a character here. *)
Record Env : Type := {
  PROJECT : string;
  QUEUE_LOCATION : string;
  QUEUE_NAME : string;
  CONFIG_JOB_NAMES : string;
  (* datetime.utcnow(), by reading number *)
  clock : nat → Z;
  (* google.oauth2.id_token.fetch_id_token(auth_req, audience), by
     request number *)
  fetch_id_token : nat → string → outcome string;
  (* client.create_task(request={parent, task}), by request number: the
     name of the created task *)
  create_task : nat → string → Task → outcome string
}.

Abbreviation M := (St World).

(** ** Python strings *)

(** [c.isspace()] for an ASCII character: tab to carriage return, the
    four separators 28 to 31, and the space. *)
Definition isspace (c : Ascii.ascii) : bool :=
  let n := Ascii.nat_of_ascii c in
  ((9 <=? n) && (n <=? 13) || (28 <=? n) && (n <=? 32))%nat.

Fixpoint lstrip (s : string) : string :=
  match s with
  | EmptyString => EmptyString
  | String c s' => if isspace c then lstrip s' else s
  end.

Definition rstrip (s : string) : string := String.rev (lstrip (String.rev s)).

(** [s.strip()]. *)
Definition strip (s : string) : string := rstrip (lstrip s).

(** [for pull in s]: iterating a string yields its characters, each a
    string of length one. *)
Fixpoint iter_str (s : string) : list string :=
  match s with
  | EmptyString => []
  | String c s' => String c EmptyString :: iter_str s'
  end.

Section Dispatcher.

Context (env : Env).

(** ** The globals of the module *)

Definition task_url : string :=
  "https://us-central1-" +:+ PROJECT env +:+ ".cloudfunctions.net/bq-load-file".

Definition PULL_DICT : list string :=
  strip <$> iter_str (CONFIG_JOB_NAMES env).

(** ** The functions of the source *)

(** [client.queue_path(project, location, queue)]. *)
Definition queue_path (project location queue_name : string) : string :=
  "projects/" +:+ project +:+ "/locations/" +:+ location
    +:+ "/queues/" +:+ queue_name.

Definition utcnow : M Z := λ w,
  (Ok (clock env (clock_reads w)),
   {| queue := queue w; token_requests := token_requests w;
      task_requests := task_requests w; clock_reads := S (clock_reads w) |}).

Definition request_id_token (audience : string) : M string := λ w,
  (fetch_id_token env (token_requests w) audience,
   {| queue := queue w; token_requests := S (token_requests w);
      task_requests := task_requests w; clock_reads := clock_reads w |}).

(** The queue keeps the task when the request succeeds. *)
Definition request_create_task (parent : string) (task : Task) : M string := λ w,
  match create_task env (task_requests w) parent task with
  | Ok response_name =>
    (Ok response_name,
     {| queue := queue w ++ [(parent, task)]; token_requests := token_requests w;
        task_requests := S (task_requests w); clock_reads := clock_reads w |})
  | Raise e =>
    (Raise e,
     {| queue := queue w; token_requests := token_requests w;
        task_requests := S (task_requests w); clock_reads := clock_reads w |})
  end.

Definition add_object_task_to_queue (job_name : string) : M (option string) :=
  if String.eqb job_name "" then mret None
  else
  try_except
    (let parent := queue_path (PROJECT env) (QUEUE_LOCATION env) (QUEUE_NAME env) in
     let payload := [("job_name", job_name)] in
     id_token ← request_id_token task_url;
     let auth_string := "bearer " +:+ id_token in
     timestamp ← utcnow;
     let task :=
       {| http_method := "POST";
          url := task_url;
          headers := [("Content-type", "application/json");
                      ("Authorization", auth_string)];
          payload := payload;
          schedule_time := timestamp |} in
     response ← request_create_task parent task;
     mret (Some ("Success: Task created for BQ Job - " +:+ job_name)))
    (λ e, mret (Some ("Failure: Task not created for BQ Job - " +:+ job_name))).

(** [asyncio.gather] over the executor calls, taken in list order: the
    calls share nothing but the queue, which keeps what each adds. *)
Fixpoint gather (job_names : list string) : M (list (option string)) :=
  match job_names with
  | [] => mret []
  | job_name :: job_names =>
    result ← add_object_task_to_queue job_name;
    results ← gather job_names;
    mret (result :: results)
  end.

Definition schedule_objects : M string :=
  order_task_values ← gather PULL_DICT;
  mret "All object pulls queued".

Definition bq_start_extraction : M string := schedule_objects.

(** The job names the queued tasks carry, in queue order. *)
Definition queued_job_names (w : World) : list (option string) :=
  (λ entry, task_job_name (snd entry)) <$> queue w.

(** The names of [PULL_DICT] that are not empty: the ones a task is
    requested for. *)
Definition attempted_names : list string :=
  filter (λ job_name, job_name ≠ "") PULL_DICT.

(** A queue entry is addressed to the orchestrator: under the queue's
    path, a POST to its URL with a JSON content type and a bearer token. *)
Definition addressed (entry : string * Task) : Prop :=
  entry.1 = queue_path (PROJECT env) (QUEUE_LOCATION env) (QUEUE_NAME env) ∧
  http_method entry.2 = "POST" ∧
  url entry.2 = task_url ∧
  ∃ id_token,
    headers entry.2 = [("Content-type", "application/json");
                       ("Authorization", "bearer " +:+ id_token)].

End Dispatcher.

(** ** A deployment configured with the one job name [shopify_orders] *)

Module Scenario.

Definition deployment : Env :=
  {| PROJECT := "shop";
     QUEUE_LOCATION := "us-central1";
     QUEUE_NAME := "loads";
     CONFIG_JOB_NAMES := "shopify_orders";
     clock := λ n, 1700000000000000 + Z.of_nat n;
     fetch_id_token := λ n audience, Ok "token";
     create_task := λ n parent task, Ok (parent +:+ "/tasks/1") |}.

Definition idle : World :=
  {| queue := []; token_requests := 0; task_requests := 0; clock_reads := 0 |}.

(** One invocation of the dispatcher. *)
Definition dispatch : outcome string * World :=
  bq_start_extraction deployment idle.

End Scenario.

End StartLoad.

(** * Properties of the load orchestrator *)

Module LoadFileFacts.

Import LoadFile.

(** ** Running the code symbolically *)

Ltac run :=
  cbv [set_entity_item get_entity put utcnow list_blobs load_files_to_biquery
       emit lift try_except mbind mret fmap St_bind St_ret St_fmap
       outcome_bind outcome_ret outcome_fmap]; cbn [fst snd].

Ltac step :=
  cbn -[load_job_result list_blobs_loop get_schema String.append String.length].

(** Case analysis on membership in a list of events that is written out;
    the cases of another kind of event go away. *)
Ltac among Hin :=
  rewrite ?elem_of_app, ?elem_of_cons, ?elem_of_nil in Hin;
  repeat match type of Hin with
         | _ ∨ _ => destruct Hin as [Hin|Hin]
         | False => destruct Hin
         end;
  try discriminate.

Section Running.

Context (env : Env).

Lemma set_entity_item_run (job_name key : string) (v : value) (w : World) :
  set_entity_item job_name key v w =
  (Ok true,
   {| datastore := <[job_name := updated_record job_name key v w]> (datastore w);
      clock_reads := clock_reads w;
      trace := trace w ++
        [EvGet job_name; EvPut job_name (updated_record job_name key v w)] |}).
Proof.
  unfold updated_record. run. cbn. rewrite <- app_assoc. cbn.
  destruct (datastore w !! job_name); reflexivity.
Qed.

Lemma list_blobs_loop_filter (bucket_name : string) (watermark : Z)
    (blobs : list Blob) (acc : list string) :
  list_blobs_loop bucket_name (VTime watermark) blobs acc =
  Ok (acc ++ (blob_uri bucket_name <$> filter (newer_than watermark) blobs)).
Proof.
  revert acc. induction blobs as [|blob blobs IH]; intros acc; cbn.
  - by rewrite app_nil_r.
  - destruct (Z.gtb_spec (int_timestamp (updated blob)) (int_timestamp watermark))
      as [Hgt|Hle].
    + rewrite decide_True by (unfold newer_than; lia).
      rewrite IH, <- app_assoc. reflexivity.
    + rewrite decide_False by (unfold newer_than; lia). apply IH.
Qed.

Lemma new_events_refl (w : World) : new_events w w = [].
Proof. unfold new_events. by rewrite drop_all. Qed.

Lemma new_events_app (w : World) ds n (evs : list event) :
  new_events w {| datastore := ds; clock_reads := n; trace := trace w ++ evs |}
  = evs.
Proof. unfold new_events. cbn. apply drop_app_length. Qed.

Lemma new_events_with_events (job_name : string) (w : World) (evs : list event) :
  new_events w (with_events (stamped env job_name (at_guard job_name w)) evs)
  = [EvGet job_name; EvGet job_name;
     EvPut job_name
       (updated_record job_name "last_attempted_grab"
          (VTime (clock env (S (clock_reads w)))) w)] ++ evs.
Proof.
  unfold with_events, stamped, at_guard. cbn.
  rewrite <- !app_assoc. apply new_events_app.
Qed.

Lemma get_config_str (job_name : value) (config : Config) :
  get_config env job_name = Ok config → ∃ j, job_name = VStr j.
Proof.
  unfold get_config. destruct (config_file env) as [[document|e]|]; cbn; try done.
  destruct job_name; try done. eauto.
Qed.

(** A resolved request runs the guard on the job's persisted state and,
    when the guard lets it through, the accepted run. *)
Lemma start_file_load_resolved (request : Request) (d : gmap string value)
    (job_name : string) (config : Config) (w : World) :
  resolves env request d job_name config →
  start_file_load env request w =
    let current_time := clock env (clock_reads w) in
    let entity := datastore w !! job_name in
    match debounce (get_json request) current_time
            (get_last_modified_time entity) (last_attempted_of entity) with
    | Raise e => (Raise e, at_guard job_name w)
    | Ok None => (Ok RNone, at_guard job_name w)
    | Ok (Some backfill_flag) =>
      load_accepted env job_name config current_time
        (get_last_modified_time entity) backfill_flag (at_guard job_name w)
    end.
Proof.
  intros (Hbody & Hname & Hconfig & Hcreate & Hwrite).
  unfold start_file_load. rewrite Hbody. cbn [request_get]. rewrite Hname.
  unfold mbind in Hcreate, Hwrite. run. cbn. rewrite Hconfig, Hcreate, Hwrite.
  unfold at_guard, last_attempted_of.
  destruct (debounce _ _ _ _) as [[flag|]|e]; reflexivity.
Qed.

(** Every path through the accepted run, with the world it ends in. *)
Lemma load_accepted_run (job_name : string) (config : Config) (current_time : Z)
    (last_modified_time backfill_flag : value) (w : World) :
  load_accepted env job_name config current_time last_modified_time backfill_flag w =
  let ws := stamped env job_name w in
  let sel := selection env config last_modified_time backfill_flag in
  match sel.1 with
  | Raise e => (Raise e, with_events ws sel.2)
  | Ok blobs_to_load =>
    if Nat.eqb (len blobs_to_load) 0
    then (Ok (RStr ("There are no new blobs to load for " +:+ job_name)),
          with_events ws sel.2)
    else
      match schema_of env config with
      | Raise e => (Raise e, with_events ws sel.2)
      | Ok schema =>
        let a := load_args config blobs_to_load schema in
        let wl := with_events ws (sel.2 ++ [EvLoad a (load_job_result env a)]) in
        match load_job_result env a with
        | Raise e => (Ok RNone, wl)
        | Ok _ =>
          (Ok (RStr ("Success for " +:+ job_name)),
           committed job_name current_time wl)
        end
      end
  end.
Proof.
  unfold load_accepted, selection, schema_of, committed, stamped, with_events,
    load_args, updated_record, wildcard.
  run. step.
  destruct (is_True backfill_flag); step.
  2: destruct (list_blobs_loop _ _ _ _) as [files|e]; step.
  all: repeat match goal with
       | |- context [Nat.eqb ?n 0] => destruct (Nat.eqb n 0)
       | |- context [schema_file_location ?c] => destruct (schema_file_location c)
       | |- context [negb ?b] => destruct (negb b)
       | |- context [get_schema ?e ?l] => destruct (get_schema e l)
       end; step.
  all: repeat match goal with
       | |- context [load_job_result ?e ?a] => destruct (load_job_result e a)
       end; step.
  all: rewrite <- ?app_assoc; cbn [app].
  all: reflexivity.
Qed.

Lemma debounce_state_missing (request_json : option json_body) (current_time : Z)
    (last_modified_time last_attempted_grab : value) :
  truthy last_modified_time && truthy last_attempted_grab = false →
  debounce request_json current_time last_modified_time last_attempted_grab
  = Ok (Some (VBool true)).
Proof. unfold debounce. by intros ->. Qed.

Lemma debounce_timestamps (d : gmap string value) (current_time watermark attempted : Z) :
  debounce (Some (JObject d)) current_time (VTime watermark) (VTime attempted) =
  if Z.gtb attempted (current_time - timedelta_minutes 5)
  then Ok None
  else Ok (Some (default (VBool false) (d !! "backfill"))).
Proof. reflexivity. Qed.

(** A run that does not resolve touches nothing. *)
Lemma start_file_load_paths (request : Request) (w : World)
    (r : outcome response) (w' : World) :
  start_file_load env request w = (r, w') →
  (datastore w' = datastore w ∧ new_events w w' = []) ∨
  (∃ d job_name config, resolves env request d job_name config).
Proof.
  unfold start_file_load, resolves.
  destruct (get_json request) as [[d|]|]; cbn [request_get]; run; step.
  2,3: intros [= <- <-]; left; by rewrite new_events_refl.
  destruct (d !! "job_name") as [job_name|] eqn:Hname; step.
  2: intros [= <- <-]; left; by rewrite new_events_refl.
  destruct job_name as [|b|n|job_name|t]; step.
  1: intros [= <- <-]; left; by rewrite new_events_refl.
  1,2,4: destruct (get_config env _) as [config|e] eqn:Hconfig; step;
    [apply get_config_str in Hconfig as [? [=]]|];
    intros [= <- <-]; left; split; [done|]; cbn;
    by rewrite <- (app_nil_r (trace w)), new_events_app.
  destruct (get_config env _) as [config|e] eqn:Hconfig; step.
  2: intros [= <- <-]; left; split; [done|]; cbn;
    by rewrite <- (app_nil_r (trace w)), new_events_app.
  destruct (option_bind _ _ _ (create_behavior config)) eqn:Hcreate.
  1: intros [= <- <-]; left; split; [done|]; cbn;
    by rewrite <- (app_nil_r (trace w)), new_events_app.
  destruct (option_bind _ _ _ (write_behavior config)) eqn:Hwrite.
  1: intros [= <- <-]; left; split; [done|]; cbn;
    by rewrite <- (app_nil_r (trace w)), new_events_app.
  intros _. right. by exists d, job_name, config.
Qed.

Lemma new_events_committed (job_name : string) (t : Z) (w : World)
    (evs : list event) :
  new_events w
    (committed job_name t
       (with_events (stamped env job_name (at_guard job_name w)) evs))
  = [EvGet job_name; EvGet job_name;
     EvPut job_name
       (updated_record job_name "last_attempted_grab"
          (VTime (clock env (S (clock_reads w)))) w)] ++ evs ++
    [EvGet job_name;
     EvPut job_name
       (updated_record job_name "last_modified_time" (VTime t)
          (with_events (stamped env job_name (at_guard job_name w)) evs))].
Proof.
  unfold committed, with_events, stamped, at_guard. cbn.
  rewrite <- !app_assoc. apply new_events_app.
Qed.

(** No loader call hides among the events of a selection. *)
Lemma selection_events (config : Config) (last_modified_time backfill_flag : value)
    (a : LoadArgs) (result : outcome LoadResult) :
  EvLoad a result ∉ (selection env config last_modified_time backfill_flag).2.
Proof.
  unfold selection. destruct (is_True backfill_flag); cbn; intros Hin; among Hin.
Qed.

(** A loader call in the events of a run pins the run down: the request
    resolved, the run was accepted, and it ended according to what the
    loader answered. *)
Lemma loader_call_inv (request : Request) (w : World)
    (r : outcome response) (w' : World) (a : LoadArgs) (result : outcome LoadResult) :
  start_file_load env request w = (r, w') →
  EvLoad a result ∈ new_events w w' →
  ∃ d job_name config evs,
    resolves env request d job_name config ∧
    (∀ a' result', EvLoad a' result' ∉ evs) ∧
    result = load_job_result env a ∧
    match result with
    | Raise _ => r = Ok RNone ∧ w' = loaded env job_name w evs a result
    | Ok _ =>
      r = Ok (RStr ("Success for " +:+ job_name)) ∧
      w' = committed job_name (clock env (clock_reads w))
             (loaded env job_name w evs a result)
    end.
Proof.
  intros Hrun Hin.
  destruct (start_file_load_paths _ _ _ _ Hrun) as [[_ Hnone]|(d & job_name & config & Hres)].
  { rewrite Hnone in Hin. by apply elem_of_nil in Hin. }
  exists d, job_name, config.
  rewrite (start_file_load_resolved _ _ _ _ _ Hres) in Hrun. cbv zeta in Hrun.
  destruct (debounce _ _ _ _) as [[backfill_flag|]|e].
  2,3: injection Hrun as <- <-; unfold at_guard in Hin;
    rewrite new_events_app in Hin; among Hin.
  rewrite load_accepted_run in Hrun. cbv zeta in Hrun.
  pose proof (selection_events config
    (get_last_modified_time (datastore w !! job_name)) backfill_flag) as Hsel.
  destruct (selection env config _ backfill_flag) as [[blobs|e] evs];
    cbn [fst snd] in Hrun, Hsel.
  2: injection Hrun as <- <-; rewrite new_events_with_events in Hin;
    among Hin; by apply Hsel in Hin.
  destruct (Nat.eqb (len blobs) 0).
  1: injection Hrun as <- <-; rewrite new_events_with_events in Hin;
    among Hin; by apply Hsel in Hin.
  destruct (schema_of env config) as [schema|e].
  2: injection Hrun as <- <-; rewrite new_events_with_events in Hin;
    among Hin; by apply Hsel in Hin.
  exists evs. split; [done|]. split; [done|].
  destruct (load_job_result env (load_args config blobs schema)) as [res|e] eqn:Hload;
    injection Hrun as <- <-.
  - rewrite new_events_committed in Hin.
    among Hin; [by apply Hsel in Hin|]. injection Hin as -> ->.
    split; [done|]. split; reflexivity.
  - rewrite new_events_with_events in Hin.
    among Hin; [by apply Hsel in Hin|]. injection Hin as -> ->.
    split; [done|]. split; reflexivity.
Qed.

End Running.

(** ** The watermark store *)

(** C9. [set_entity_item] reads the job's current record, sets the named
    field in it and writes the whole record back: afterwards the field
    holds the value, every other field of the record is what it was, a
    record that was absent is created with that field only, and no other
    job's record is touched. *)
Theorem set_entity_item_frame (job_name key : string) (v : value) (w : World) :
  ∃ (record : gmap string value) (w' : World),
    set_entity_item job_name key v w = (Ok true, w') ∧
    new_events w w' = [EvGet job_name; EvPut job_name record] ∧
    datastore w' !! job_name = Some record ∧
    record !! key = Some v ∧
    (∀ other, other ≠ key → record !! other = field w job_name other) ∧
    (datastore w !! job_name = None → record = {[key := v]}) ∧
    (∀ job, job ≠ job_name → datastore w' !! job = datastore w !! job).
Proof.
  eexists _, _. split; [apply set_entity_item_run|].
  split; [apply new_events_app|]. cbn. unfold updated_record, field.
  split; [apply lookup_insert_eq|].
  split; [apply lookup_insert_eq|].
  split; [|split].
  - intros other Hne. rewrite lookup_insert_ne by done.
    by destruct (datastore w !! job_name).
  - intros ->. reflexivity.
  - intros job Hne. by rewrite lookup_insert_ne.
Qed.

(** ** File selection *)


(** ** The debounce guard and the mode decision *)

(** C1. When the job's persisted state holds both timestamps and the last
    attempt is later than the run's start time minus five minutes, a
    request that reaches the guard is a no-op: [start_file_load] returns
    [None], the datastore is what it was, and the only call made is the
    read of the job's entity (no [set_entity_item], no loader call). *)
Theorem debounce_is_noop (env : Env) (request : Request) (d : gmap string value)
    (job_name : string) (config : Config) (w : World)
    (entity : gmap string value) (watermark attempted : Z) :
  resolves env request d job_name config →
  datastore w !! job_name = Some entity →
  entity !! "last_modified_time" = Some (VTime watermark) →
  entity !! "last_attempted_grab" = Some (VTime attempted) →
  attempted > clock env (clock_reads w) - timedelta_minutes 5 →
  ∃ w', start_file_load env request w = (Ok RNone, w') ∧
        datastore w' = datastore w ∧
        new_events w w' = [EvGet job_name].
Proof.
  intros Hres Hentity Hwatermark Hattempted Hsoon.
  rewrite (start_file_load_resolved _ _ _ _ _ _ Hres). cbv zeta.
  destruct Hres as (-> & _). rewrite Hentity. cbn [get_last_modified_time last_attempted_of].
  rewrite Hwatermark, Hattempted. cbn [from_option id]. rewrite debounce_timestamps.
  replace (Z.gtb attempted _) with true by (symmetry; apply Z.gtb_lt; lia).
  eexists. split; [reflexivity|]. split; [reflexivity|].
  unfold at_guard. apply new_events_app.
Qed.

Lemma debounce_is_noop_witness :
  ∃ w', start_file_load Scenario.healthy (Scenario.request_for "orders")
          (Scenario.after_run_at (Scenario.T0 + Scenario.minutes 8))
        = (Ok RNone, w') ∧
        datastore w' = datastore (Scenario.after_run_at (Scenario.T0 + Scenario.minutes 8)) ∧
        new_events (Scenario.after_run_at (Scenario.T0 + Scenario.minutes 8)) w'
        = [EvGet "orders"].
Proof.
  apply (debounce_is_noop Scenario.healthy (Scenario.request_for "orders")
           (Scenario.body_for "orders") "orders" Scenario.orders
           (Scenario.after_run_at (Scenario.T0 + Scenario.minutes 8))
           (Scenario.ran_at (Scenario.T0 + Scenario.minutes 8))
           (Scenario.T0 + Scenario.minutes 8) (Scenario.T0 + Scenario.minutes 8)).
  - repeat split; vm_compute; reflexivity.
  - vm_compute; reflexivity.
  - vm_compute; reflexivity.
  - vm_compute; reflexivity.
  - vm_compute; reflexivity.
Defined.

(** The guard does not see a state that lacks one of the timestamps. *)
Lemma incomplete_state_not_truthy (w : World) (job_name : string) :
  datastore w !! job_name = None ∨
  field w job_name "last_modified_time" = None ∨
  field w job_name "last_attempted_grab" = None →
  truthy (get_last_modified_time (datastore w !! job_name)) &&
  truthy (last_attempted_of (datastore w !! job_name)) = false.
Proof.
  unfold field, get_last_modified_time, last_attempted_of.
  destruct (datastore w !! job_name) as [entity|]; cbn; [|done].
  intros [[=]|[->| ->]]; cbn; [done|]. apply andb_false_r.
Qed.

(** C2. When the job has no persisted state, or its state lacks the
    watermark or the attempt stamp, a request that reaches the guard is
    accepted in backfill mode whatever its [backfill] flag says: the guard
    answers with the flag [True], the attempt stamp is written, no listing
    is made, and the loader, once the schema is read, is called with the
    wildcard pattern. *)
Theorem missing_state_forces_backfill (env : Env) (request : Request)
    (d : gmap string value) (job_name : string) (config : Config) (w : World) :
  resolves env request d job_name config →
  datastore w !! job_name = None ∨
  field w job_name "last_modified_time" = None ∨
  field w job_name "last_attempted_grab" = None →
  debounce (get_json request) (clock env (clock_reads w))
    (get_last_modified_time (datastore w !! job_name))
    (last_attempted_of (datastore w !! job_name)) = Ok (Some (VBool true)) ∧
  ∃ r w' rest,
    start_file_load env request w = (r, w') ∧
    new_events w w' =
      [EvGet job_name; EvGet job_name;
       EvPut job_name
         (updated_record job_name "last_attempted_grab"
            (VTime (clock env (S (clock_reads w)))) w)] ++ rest ∧
    (∀ bucket prefix, EvListBlobs bucket prefix ∉ rest) ∧
    (∀ a result, EvLoad a result ∈ rest →
       list_file_names a = Pattern (wildcard config)) ∧
    (∀ schema, schema_of env config = Ok schema →
       ∃ result,
         EvLoad (load_args config (Pattern (wildcard config)) schema) result ∈ rest).
Proof.
  intros Hres Hmissing.
  apply incomplete_state_not_truthy in Hmissing.
  pose proof (debounce_state_missing (get_json request)
    (clock env (clock_reads w)) _ _ Hmissing) as Hguard.
  split; [exact Hguard|].
  rewrite (start_file_load_resolved _ _ _ _ _ _ Hres). cbv zeta.
  rewrite Hguard, load_accepted_run. cbv zeta.
  unfold selection. cbn [is_True fst snd len]. unfold wildcard at 1. step.
  destruct (schema_of env config) as [schema|e] eqn:Hschema.
  - destruct (load_job_result env _) as [res|e] eqn:Hload;
      eexists _, _, _; (split; [reflexivity|]).
    + unfold loaded. rewrite new_events_committed. split; [reflexivity|].
      cbn [app]. split; [|split].
      * intros bucket prefix Hin. among Hin.
      * intros a result Hin. among Hin. by injection Hin as -> _.
      * intros ? [= <-]. exists (Ok res). apply list_elem_of_here.
    + rewrite new_events_with_events. split; [reflexivity|].
      cbn [app]. split; [|split].
      * intros bucket prefix Hin. among Hin.
      * intros a result Hin. among Hin. by injection Hin as -> _.
      * intros ? [= <-]. exists (Raise e). apply list_elem_of_here.
  - eexists _, _, []. split; [reflexivity|].
    rewrite new_events_with_events. split; [reflexivity|].
    split; [|split].
    + intros bucket prefix Hin. among Hin.
    + intros a result Hin. among Hin.
    + intros ? [=].
Qed.

Lemma missing_state_forces_backfill_witness :
  debounce (get_json Scenario.incremental_request)
    (clock Scenario.healthy (clock_reads Scenario.fresh))
    (get_last_modified_time (datastore Scenario.fresh !! "orders"))
    (last_attempted_of (datastore Scenario.fresh !! "orders"))
  = Ok (Some (VBool true)) ∧
  ∃ r w' rest,
    start_file_load Scenario.healthy Scenario.incremental_request Scenario.fresh
    = (r, w') ∧
    new_events Scenario.fresh w' =
      [EvGet "orders"; EvGet "orders";
       EvPut "orders"
         (updated_record "orders" "last_attempted_grab"
            (VTime (clock Scenario.healthy (S (clock_reads Scenario.fresh))))
            Scenario.fresh)] ++ rest ∧
    (∀ bucket prefix, EvListBlobs bucket prefix ∉ rest) ∧
    (∀ a result, EvLoad a result ∈ rest →
       list_file_names a = Pattern (wildcard Scenario.orders)) ∧
    (∀ schema, schema_of Scenario.healthy Scenario.orders = Ok schema →
       ∃ result,
         EvLoad (load_args Scenario.orders (Pattern (wildcard Scenario.orders)) schema)
           result ∈ rest).
Proof.
  apply (missing_state_forces_backfill Scenario.healthy Scenario.incremental_request
           Scenario.incremental_body "orders" Scenario.orders Scenario.fresh).
  - repeat split; vm_compute; reflexivity.
  - left. vm_compute. reflexivity.
Defined.

(** C7. An accepted incremental run that finds no blob newer than the
    watermark returns the "no new blobs" message; the calls it made are
    the entity read, the write of the attempt stamp and the listing, so
    the loader is never called, and the stamp it wrote is in the job's
    record when it returns. *)
Theorem empty_selection_skips_loader (env : Env) (request : Request)
    (d : gmap string value) (job_name : string) (config : Config) (w : World)
    (entity : gmap string value) (watermark attempted : Z) :
  resolves env request d job_name config →
  datastore w !! job_name = Some entity →
  entity !! "last_modified_time" = Some (VTime watermark) →
  entity !! "last_attempted_grab" = Some (VTime attempted) →
  (attempted <= clock env (clock_reads w) - timedelta_minutes 5)%Z →
  is_True (default (VBool false) (d !! "backfill")) = false →
  filter (newer_than watermark)
    (bucket_listing env (storage_bucket config) (blob_prefix config)) = [] →
  ∃ w',
    start_file_load env request w
    = (Ok (RStr ("There are no new blobs to load for " +:+ job_name)), w') ∧
    new_events w w' =
      [EvGet job_name; EvGet job_name;
       EvPut job_name
         (updated_record job_name "last_attempted_grab"
            (VTime (clock env (S (clock_reads w)))) w);
       EvListBlobs (storage_bucket config) (blob_prefix config)] ∧
    (∀ a result, EvLoad a result ∉ new_events w w') ∧
    field w' job_name "last_attempted_grab"
    = Some (VTime (clock env (S (clock_reads w)))).
Proof.
  intros Hres Hentity Hwatermark Hattempted Hlate Hflag Hnone.
  rewrite (start_file_load_resolved _ _ _ _ _ _ Hres). cbv zeta.
  destruct Hres as (-> & _). rewrite Hentity.
  cbn [get_last_modified_time last_attempted_of].
  rewrite Hwatermark, Hattempted. cbn [from_option id]. rewrite debounce_timestamps.
  replace (Z.gtb attempted _) with false by (symmetry; rewrite Z.gtb_ltb; apply Z.ltb_ge; lia).
  rewrite load_accepted_run. cbv zeta. unfold selection. rewrite Hflag.
  rewrite list_blobs_loop_filter, Hnone. cbn [fst snd fmap outcome_fmap len length].
  cbn [app list_fmap Nat.eqb].
  eexists. split; [reflexivity|]. rewrite new_events_with_events.
  split; [reflexivity|]. split.
  - intros a result Hin. among Hin.
  - unfold field, with_events, stamped, updated_record. cbn.
    rewrite lookup_insert_eq. cbn. apply lookup_insert_eq.
Qed.

Lemma empty_selection_skips_loader_witness :
  ∃ w',
    start_file_load Scenario.healthy Scenario.incremental_request
      (Scenario.after_run_at (Scenario.T0 + Scenario.minutes 3))
    = (Ok (RStr ("There are no new blobs to load for " +:+ "orders")), w') ∧
    new_events (Scenario.after_run_at (Scenario.T0 + Scenario.minutes 3)) w' =
      [EvGet "orders"; EvGet "orders";
       EvPut "orders"
         (updated_record "orders" "last_attempted_grab"
            (VTime (clock Scenario.healthy 1))
            (Scenario.after_run_at (Scenario.T0 + Scenario.minutes 3)));
       EvListBlobs (storage_bucket Scenario.orders) (blob_prefix Scenario.orders)] ∧
    (∀ a result,
       EvLoad a result
       ∉ new_events (Scenario.after_run_at (Scenario.T0 + Scenario.minutes 3)) w') ∧
    field w' "orders" "last_attempted_grab"
    = Some (VTime (clock Scenario.healthy 1)).
Proof.
  apply (empty_selection_skips_loader Scenario.healthy Scenario.incremental_request
           Scenario.incremental_body "orders" Scenario.orders
           (Scenario.after_run_at (Scenario.T0 + Scenario.minutes 3))
           (Scenario.ran_at (Scenario.T0 + Scenario.minutes 3))
           (Scenario.T0 + Scenario.minutes 3) (Scenario.T0 + Scenario.minutes 3)).
  - repeat split; vm_compute; reflexivity.
  - vm_compute; reflexivity.
  - vm_compute; reflexivity.
  - vm_compute; reflexivity.
  - vm_compute. discriminate.
  - vm_compute; reflexivity.
  - vm_compute; reflexivity.
Defined.

(** ** The outcome of the load *)

(** C5. In every run whose loader call completes, whether the selection
    was the wildcard or a list of files, [start_file_load] returns the
    success string and the watermark of the job's record is the time read
    at the start of the run: the first clock reading, not the second one
    that stamps the attempt, and nothing taken from the blobs. *)
Theorem success_commits_run_start (env : Env) (request : Request) (w : World)
    (r : outcome response) (w' : World) (a : LoadArgs) (res : LoadResult) :
  start_file_load env request w = (r, w') →
  EvLoad a (Ok res) ∈ new_events w w' →
  ∃ job_name,
    request_get (get_json request) "job_name" VNone = Ok (VStr job_name) ∧
    r = Ok (RStr ("Success for " +:+ job_name)) ∧
    field w' job_name "last_modified_time"
    = Some (VTime (clock env (clock_reads w))).
Proof.
  intros Hrun Hin.
  destruct (loader_call_inv env _ _ _ _ _ _ Hrun Hin)
    as (d & job_name & config & evs & Hres & _ & _ & -> & ->).
  exists job_name. destruct Hres as (-> & Hname & _).
  split; [cbn; by rewrite Hname|]. split; [reflexivity|].
  unfold field, committed, updated_record. cbn.
  rewrite lookup_insert_eq. cbn. apply lookup_insert_eq.
Qed.

Lemma success_commits_run_start_witness :
  (∃ job_name,
     request_get (get_json (Scenario.request_for "orders")) "job_name" VNone
     = Ok (VStr job_name) ∧
     Scenario.first_run.1 = Ok (RStr ("Success for " +:+ job_name)) ∧
     field Scenario.first_run.2 job_name "last_modified_time"
     = Some (VTime (clock Scenario.healthy (clock_reads Scenario.fresh)))) ∧
  (∃ job_name,
     request_get (get_json Scenario.incremental_request) "job_name" VNone
     = Ok (VStr job_name) ∧
     Scenario.incremental_run.1 = Ok (RStr ("Success for " +:+ job_name)) ∧
     field Scenario.incremental_run.2 job_name "last_modified_time"
     = Some (VTime (clock Scenario.healthy
                      (clock_reads (Scenario.after_run_at Scenario.T0))))).
Proof.
  split.
  - apply (success_commits_run_start Scenario.healthy (Scenario.request_for "orders")
             Scenario.fresh Scenario.first_run.1 Scenario.first_run.2
             (load_args Scenario.orders (Pattern (wildcard Scenario.orders)) (Some "[]"))
             {| output_rows := 10; input_files := 1 |}).
    + apply surjective_pairing.
    + apply (list_elem_of_lookup_2 _ 3%nat). vm_compute. reflexivity.
  - apply (success_commits_run_start Scenario.healthy Scenario.incremental_request
             (Scenario.after_run_at Scenario.T0)
             Scenario.incremental_run.1 Scenario.incremental_run.2
             (load_args Scenario.orders
                (Files [blob_uri "landing" Scenario.new_blob]) (Some "[]"))
             {| output_rows := 10; input_files := 1 |}).
    + apply surjective_pairing.
    + apply (list_elem_of_lookup_2 _ 4%nat). vm_compute. reflexivity.
Defined.



(** ** Errors of the request and of the configuration *)






(** ** Every run, by the way it ends *)

(** A run ends in one of five ways: before the request resolved, with
    nothing read or written; at the guard, turned away or raising; after
    the attempt stamp and before any loader call; with the loader call
    raising; or with the loader call returning and the watermark
    committed. *)
Lemma resolved_run_cases (env : Env) (request : Request) (d : gmap string value)
    (job_name : string) (config : Config) (w : World)
    (r : outcome response) (w' : World) :
  resolves env request d job_name config →
  start_file_load env request w = (r, w') →
  (w' = at_guard job_name w ∧ (r = Ok RNone ∨ ∃ e, r = Raise e)) ∨
  (∃ evs,
     (∀ a res, EvLoad a res ∉ evs) ∧
     w' = with_events (stamped env job_name (at_guard job_name w)) evs ∧
     (r = Ok (RStr ("There are no new blobs to load for " +:+ job_name)) ∨
      ∃ e, r = Raise e)) ∨
  (∃ evs blobs schema e,
     (∀ a res, EvLoad a res ∉ evs) ∧
     len blobs ≠ 0%nat ∧
     load_job_result env (load_args config blobs schema) = Raise e ∧
     w' = loaded env job_name w evs (load_args config blobs schema) (Raise e) ∧
     r = Ok RNone) ∨
  (∃ evs blobs schema res,
     (∀ a res', EvLoad a res' ∉ evs) ∧
     len blobs ≠ 0%nat ∧
     load_job_result env (load_args config blobs schema) = Ok res ∧
     w' = committed job_name (clock env (clock_reads w))
            (loaded env job_name w evs (load_args config blobs schema) (Ok res)) ∧
     r = Ok (RStr ("Success for " +:+ job_name))).
Proof.
  intros Hres Hrun.
  rewrite (start_file_load_resolved _ _ _ _ _ _ Hres) in Hrun. cbv zeta in Hrun.
  destruct (debounce _ _ _ _) as [[backfill_flag|]|e].
  2,3: injection Hrun as <- <-; left; split; [done|]; eauto.
  rewrite load_accepted_run in Hrun. cbv zeta in Hrun.
  pose proof (selection_events env config
    (get_last_modified_time (datastore w !! job_name)) backfill_flag) as Hsel.
  destruct (selection env config _ backfill_flag) as [[blobs|e] evs];
    cbn [fst snd] in Hrun, Hsel.
  2: injection Hrun as <- <-; right; left; exists evs; eauto.
  destruct (Nat.eqb (len blobs) 0) eqn:Hlen.
  1: injection Hrun as <- <-; right; left; exists evs; eauto.
  apply Nat.eqb_neq in Hlen.
  destruct (schema_of env config) as [schema|e].
  2: injection Hrun as <- <-; right; left; exists evs; eauto.
  destruct (load_job_result env (load_args config blobs schema)) as [res|e] eqn:Hload;
    injection Hrun as <- <-; right; right; [right|left].
  - exists evs, blobs, schema, res. by rewrite Hload.
  - exists evs, blobs, schema, e. by rewrite Hload.
Qed.

Lemma run_cases (env : Env) (request : Request) (w : World)
    (r : outcome response) (w' : World) :
  start_file_load env request w = (r, w') →
  (datastore w' = datastore w ∧ new_events w w' = []) ∨
  ∃ d job_name config,
    resolves env request d job_name config ∧
    ((w' = at_guard job_name w ∧ (r = Ok RNone ∨ ∃ e, r = Raise e)) ∨
     (∃ evs,
        (∀ a res, EvLoad a res ∉ evs) ∧
        w' = with_events (stamped env job_name (at_guard job_name w)) evs ∧
        (r = Ok (RStr ("There are no new blobs to load for " +:+ job_name)) ∨
         ∃ e, r = Raise e)) ∨
     (∃ evs blobs schema e,
        (∀ a res, EvLoad a res ∉ evs) ∧
        len blobs ≠ 0%nat ∧
        load_job_result env (load_args config blobs schema) = Raise e ∧
        w' = loaded env job_name w evs (load_args config blobs schema) (Raise e) ∧
        r = Ok RNone) ∨
     (∃ evs blobs schema res,
        (∀ a res', EvLoad a res' ∉ evs) ∧
        len blobs ≠ 0%nat ∧
        load_job_result env (load_args config blobs schema) = Ok res ∧
        w' = committed job_name (clock env (clock_reads w))
               (loaded env job_name w evs (load_args config blobs schema) (Ok res)) ∧
        r = Ok (RStr ("Success for " +:+ job_name)))).
Proof.
  intros Hrun.
  destruct (start_file_load_paths env _ _ _ _ Hrun)
    as [Hnone|(d & job_name & config & Hres)]; [by left|].
  right. exists d, job_name, config. split; [exact Hres|].
  by apply (resolved_run_cases env request d).
Qed.

(** The fields of the records after the attempt stamp and after the
    commit of the watermark. *)
Lemma field_stamped (env : Env) (job_name : string) (w : World)
    (evs : list event) (job key : string) :
  field (with_events (stamped env job_name (at_guard job_name w)) evs) job key =
  if decide (job = job_name ∧ key = "last_attempted_grab")
  then Some (VTime (clock env (S (clock_reads w))))
  else field w job key.
Proof.
  unfold field, with_events, stamped, at_guard, updated_record. cbn.
  destruct (decide (job = job_name)) as [->|Hjob].
  - rewrite lookup_insert_eq. cbn.
    destruct (decide (key = "last_attempted_grab")) as [->|Hkey].
    + rewrite lookup_insert_eq. by rewrite decide_True.
    + rewrite lookup_insert_ne by done. rewrite decide_False by tauto.
      by destruct (datastore w !! job_name).
  - rewrite lookup_insert_ne by done. by rewrite decide_False by tauto.
Qed.

Lemma field_committed (job_name : string) (t : Z) (wl : World) (job key : string) :
  field (committed job_name t wl) job key =
  if decide (job = job_name ∧ key = "last_modified_time")
  then Some (VTime t)
  else field wl job key.
Proof.
  unfold field, committed, updated_record. cbn.
  destruct (decide (job = job_name)) as [->|Hjob].
  - rewrite lookup_insert_eq. cbn.
    destruct (decide (key = "last_modified_time")) as [->|Hkey].
    + rewrite lookup_insert_eq. by rewrite decide_True.
    + rewrite lookup_insert_ne by done. rewrite decide_False by tauto.
      by destruct (datastore wl !! job_name).
  - rewrite lookup_insert_ne by done. by rewrite decide_False by tauto.
Qed.

Lemma field_loaded (env : Env) (job_name : string) (w : World) (evs : list event)
    (a : LoadArgs) (result : outcome LoadResult) (job key : string) :
  field (loaded env job_name w evs a result) job key =
  if decide (job = job_name ∧ key = "last_attempted_grab")
  then Some (VTime (clock env (S (clock_reads w))))
  else field w job key.
Proof. unfold loaded. apply field_stamped. Qed.

(** A request resolves in one way only. *)
Lemma resolves_unique (env : Env) (request : Request)
    (d d' : gmap string value) (job_name job_name' : string) (config config' : Config) :
  resolves env request d job_name config →
  resolves env request d' job_name' config' →
  d = d' ∧ job_name = job_name' ∧ config = config'.
Proof.
  intros (Hbody & Hname & Hconfig & _) (Hbody' & Hname' & Hconfig' & _).
  rewrite Hbody in Hbody'. injection Hbody' as <-.
  rewrite Hname in Hname'. injection Hname' as <-.
  rewrite Hconfig in Hconfig'. by injection Hconfig' as <-.
Qed.

Lemma resolves_job_name (env : Env) (request : Request) (d : gmap string value)
    (job_name : string) (config : Config) :
  resolves env request d job_name config →
  request_get (get_json request) "job_name" VNone = Ok (VStr job_name).
Proof. intros (-> & Hname & _). cbn. by rewrite Hname. Qed.

(** X1. Whatever the request and the collaborators, a run changes no
    field of the datastore other than [last_attempted_grab] and
    [last_modified_time] of the job the request names, and it deletes no
    record. *)
Theorem start_file_load_frame (env : Env) (request : Request) (w : World)
    (r : outcome response) (w' : World) :
  start_file_load env request w = (r, w') →
  (∀ job key,
     request_get (get_json request) "job_name" VNone ≠ Ok (VStr job) ∨
     (key ≠ "last_attempted_grab" ∧ key ≠ "last_modified_time") →
     field w' job key = field w job key) ∧
  (∀ job, is_Some (datastore w !! job) → is_Some (datastore w' !! job)).
Proof.
  intros Hrun.
  destruct (run_cases env _ _ _ _ Hrun)
    as [[Hsame _]|(d & job_name & config & Hres &
         [[-> _]|[(evs & _ & -> & _)|[(evs & blobs & schema & e & _ & _ & _ & -> & _)
                 |(evs & blobs & schema & res & _ & _ & _ & -> & _)]]])].
  - unfold field. rewrite Hsame. done.
  - done.
  - split.
    + intros job key Hother. rewrite field_stamped, decide_False; [done|].
      intros [-> ->]. rewrite (resolves_job_name _ _ _ _ _ Hres) in Hother.
      by destruct Hother as [?|[? ?]].
    + intros job Hsome. cbn.
      destruct (decide (job = job_name)) as [->|Hjob];
        [by rewrite lookup_insert_eq|by rewrite lookup_insert_ne].
  - split.
    + intros job key Hother. rewrite field_loaded, decide_False; [done|].
      intros [-> ->]. rewrite (resolves_job_name _ _ _ _ _ Hres) in Hother.
      by destruct Hother as [?|[? ?]].
    + intros job Hsome. cbn.
      destruct (decide (job = job_name)) as [->|Hjob];
        [by rewrite lookup_insert_eq|by rewrite lookup_insert_ne].
  - split.
    + intros job key Hother.
      rewrite field_committed, decide_False, field_loaded, decide_False; [done| |].
      all: intros [-> ->]; rewrite (resolves_job_name _ _ _ _ _ Hres) in Hother;
        by destruct Hother as [?|[? ?]].
    + intros job Hsome. cbn.
      destruct (decide (job = job_name)) as [->|Hjob];
        [by rewrite lookup_insert_eq|by rewrite !lookup_insert_ne].
Qed.

Lemma start_file_load_frame_witness :
  (∀ job key,
     request_get (get_json (Scenario.request_for "orders")) "job_name" VNone
     ≠ Ok (VStr job) ∨
     (key ≠ "last_attempted_grab" ∧ key ≠ "last_modified_time") →
     field Scenario.first_run.2 job key = field Scenario.fresh job key) ∧
  (∀ job, is_Some (datastore Scenario.fresh !! job) →
          is_Some (datastore Scenario.first_run.2 !! job)).
Proof.
  apply (start_file_load_frame Scenario.healthy (Scenario.request_for "orders")
           Scenario.fresh Scenario.first_run.1 Scenario.first_run.2).
  apply surjective_pairing.
Defined.

(** X2. The watermark of a job moves only in a run whose loader call
    returned: in every other run each job's [last_modified_time] is what
    it was. *)
Theorem watermark_moves_only_on_success (env : Env) (request : Request) (w : World)
    (r : outcome response) (w' : World) :
  start_file_load env request w = (r, w') →
  (∀ a res, EvLoad a (Ok res) ∉ new_events w w') →
  ∀ job, field w' job "last_modified_time" = field w job "last_modified_time".
Proof.
  intros Hrun Hnone job.
  destruct (run_cases env _ _ _ _ Hrun)
    as [[Hsame _]|(d & job_name & config & Hres &
         [[-> _]|[(evs & _ & -> & _)|[(evs & blobs & schema & e & _ & _ & _ & -> & _)
                 |(evs & blobs & schema & res & _ & _ & _ & -> & _)]]])].
  - unfold field. by rewrite Hsame.
  - done.
  - rewrite field_stamped. by rewrite decide_False by (by intros [_ [=]]).
  - rewrite field_loaded. by rewrite decide_False by (by intros [_ [=]]).
  - exfalso. apply (Hnone (load_args config blobs schema) res).
    unfold loaded. rewrite new_events_committed.
    rewrite !elem_of_app, !elem_of_cons. auto 10.
Qed.

Lemma watermark_moves_only_on_success_witness :
  field Scenario.refused_run.2 "orders" "last_modified_time"
  = field (Scenario.after_run_at Scenario.T0) "orders" "last_modified_time".
Proof.
  refine (watermark_moves_only_on_success Scenario.failing Scenario.incremental_request
            (Scenario.after_run_at Scenario.T0)
            Scenario.refused_run.1 Scenario.refused_run.2 _ _ "orders").
  - apply surjective_pairing.
  - intros a res Hin.
    assert (new_events (Scenario.after_run_at Scenario.T0) Scenario.refused_run.2
            !! 4%nat = Some (EvLoad
              (load_args Scenario.orders
                 (Files [blob_uri "landing" Scenario.new_blob]) (Some "[]"))
              (Raise ExternalError))) as Hload by (vm_compute; reflexivity).
    assert (length (new_events (Scenario.after_run_at Scenario.T0)
                      Scenario.refused_run.2) = 5%nat) as Hlen
      by (vm_compute; reflexivity).
    apply list_elem_of_lookup_1 in Hin as [i Hi].
    assert (i < 5)%nat as Hlt by (rewrite <- Hlen; by eapply lookup_lt_Some).
    destruct i as [|[|[|[|[|i]]]]]; [..|lia];
      vm_compute in Hi; discriminate.
Defined.

(** X3. A job name that does not resolve stops the run before the
    datastore is touched: when [get_config] raises (no configuration file,
    an unreadable one, or no entry under the name), [start_file_load]
    raises the same exception with nothing read from or written to the
    datastore. *)
Theorem config_error_precedes_state (env : Env) (request : Request)
    (d : gmap string value) (name : value) (e : exn) (w : World) :
  get_json request = Some (JObject d) →
  d !! "job_name" = Some name →
  name ≠ VNone →
  get_config env name = Raise e →
  ∃ w', start_file_load env request w = (Raise e, w') ∧
        datastore w' = datastore w ∧
        new_events w w' = [].
Proof.
  intros Hbody Hname Hsome Hconfig.
  unfold start_file_load. rewrite Hbody. cbn [request_get]. rewrite Hname.
  run. step. rewrite Hconfig.
  destruct name; try done; eexists; (split; [reflexivity|]);
    (split; [reflexivity|]); unfold new_events; cbn; apply drop_all.
Qed.

Lemma config_error_precedes_state_witness :
  ∃ w', start_file_load Scenario.healthy (Scenario.request_for "customers")
          Scenario.fresh
        = (Raise ValueError, w') ∧
        datastore w' = datastore Scenario.fresh ∧
        new_events Scenario.fresh w' = [].
Proof.
  apply (config_error_precedes_state Scenario.healthy (Scenario.request_for "customers")
           (Scenario.body_for "customers") (VStr "customers") ValueError Scenario.fresh).
  - reflexivity.
  - vm_compute; reflexivity.
  - discriminate.
  - vm_compute; reflexivity.
Defined.

(** X4. A run calls the loader at most once, never with an empty
    selection, and only after it has written the attempt stamp: a loader
    call among the events of a run splits them into events before it,
    which hold the write of the stamp and no loader call, and events
    after it, which hold no loader call either. *)
Theorem loader_called_once_after_stamp (env : Env) (request : Request) (w : World)
    (r : outcome response) (w' : World) (a : LoadArgs) (res : outcome LoadResult) :
  start_file_load env request w = (r, w') →
  EvLoad a res ∈ new_events w w' →
  len (list_file_names a) ≠ 0%nat ∧
  ∃ job_name before after,
    new_events w w' = before ++ EvLoad a res :: after ∧
    EvPut job_name
      (updated_record job_name "last_attempted_grab"
         (VTime (clock env (S (clock_reads w)))) w) ∈ before ∧
    (∀ a' res', EvLoad a' res' ∉ before) ∧
    (∀ a' res', EvLoad a' res' ∉ after).
Proof.
  intros Hrun Hin.
  destruct (run_cases env _ _ _ _ Hrun)
    as [[_ Hnone]|(d & job_name & config & Hres &
         [[-> _]|[(evs & Hevs & -> & _)
                 |[(evs & blobs & schema & e & Hevs & Hlen & _ & -> & _)
                  |(evs & blobs & schema & res0 & Hevs & Hlen & _ & -> & _)]]])].
  - rewrite Hnone in Hin. among Hin.
  - unfold at_guard in Hin. rewrite new_events_app in Hin. among Hin.
  - rewrite new_events_with_events in Hin. among Hin. by apply Hevs in Hin.
  - unfold loaded in *. rewrite new_events_with_events in Hin |- *.
    among Hin; [by apply Hevs in Hin|]. injection Hin as -> ->.
    split; [exact Hlen|].
    exists job_name, ([EvGet job_name; EvGet job_name;
       EvPut job_name
         (updated_record job_name "last_attempted_grab"
            (VTime (clock env (S (clock_reads w)))) w)] ++ evs), [].
    split; [by rewrite <- !app_assoc|].
    split; [rewrite !elem_of_app, !elem_of_cons; auto 10|].
    split; intros a' res' Hin'; among Hin'. by apply Hevs in Hin'.
  - unfold loaded in *. rewrite new_events_committed in Hin |- *.
    among Hin; [by apply Hevs in Hin|]. injection Hin as -> ->.
    split; [exact Hlen|].
    eexists job_name, ([EvGet job_name; EvGet job_name;
       EvPut job_name
         (updated_record job_name "last_attempted_grab"
            (VTime (clock env (S (clock_reads w)))) w)] ++ evs), [_; _].
    split; [by rewrite <- !app_assoc|].
    split; [rewrite !elem_of_app, !elem_of_cons; auto 10|].
    split; intros a' res' Hin'; among Hin'. by apply Hevs in Hin'.
Qed.

Lemma loader_called_once_after_stamp_witness :
  len (list_file_names
         (load_args Scenario.orders
            (Files [blob_uri "landing" Scenario.new_blob]) (Some "[]"))) ≠ 0%nat ∧
  ∃ job_name before after,
    new_events (Scenario.after_run_at Scenario.T0) Scenario.incremental_run.2
    = before ++
      EvLoad (load_args Scenario.orders
                (Files [blob_uri "landing" Scenario.new_blob]) (Some "[]"))
        (Ok {| output_rows := 10; input_files := 1 |}) :: after ∧
    EvPut job_name
      (updated_record job_name "last_attempted_grab"
         (VTime (clock Scenario.healthy
                   (S (clock_reads (Scenario.after_run_at Scenario.T0)))))
         (Scenario.after_run_at Scenario.T0)) ∈ before ∧
    (∀ a' res', EvLoad a' res' ∉ before) ∧
    (∀ a' res', EvLoad a' res' ∉ after).
Proof.
  apply (loader_called_once_after_stamp Scenario.healthy Scenario.incremental_request
           (Scenario.after_run_at Scenario.T0)
           Scenario.incremental_run.1 Scenario.incremental_run.2).
  - apply surjective_pairing.
  - apply (list_elem_of_lookup_2 _ 4%nat). vm_compute. reflexivity.
Defined.

(** The loader refuses a file type it does not know before it asks the
    warehouse. *)
Lemma load_job_result_unknown_type (env : Env) (a : LoadArgs) :
  arg_file_type a ≠ "json" → arg_file_type a ≠ "csv" →
  load_job_result env a = Raise ValueError.
Proof.
  intros Hjson Hcsv. unfold load_job_result.
  apply String.eqb_neq in Hjson, Hcsv. by rewrite Hjson, Hcsv.
Qed.

(** X5. A job whose [file_type] is neither [json] nor [csv] never loads:
    in every run of it each loader call ends in [ValueError], the result
    is never the success string, and no watermark moves. *)
Theorem unknown_file_type_never_loads (env : Env) (request : Request)
    (d : gmap string value) (job_name : string) (config : Config) (w : World)
    (r : outcome response) (w' : World) :
  resolves env request d job_name config →
  file_type config ≠ "json" →
  file_type config ≠ "csv" →
  start_file_load env request w = (r, w') →
  (∀ a res, EvLoad a res ∈ new_events w w' → res = Raise ValueError) ∧
  (∀ name, r ≠ Ok (RStr ("Success for " +:+ name))) ∧
  (∀ job, field w' job "last_modified_time" = field w job "last_modified_time").
Proof.
  intros Hres Hjson Hcsv Hrun.
  assert (∀ blobs schema,
            load_job_result env (load_args config blobs schema) = Raise ValueError)
    as Hload by (intros; by apply load_job_result_unknown_type).
  destruct (resolved_run_cases env _ _ _ _ _ _ _ Hres Hrun)
    as [[-> Hr]|[(evs & Hevs & -> & Hr)
                |[(evs & blobs & schema & e & Hevs & _ & He & -> & ->)
                 |(evs & blobs & schema & res & _ & _ & Hok & _)]]].
  - split; [|split].
    + intros a res Hin. unfold at_guard in Hin. rewrite new_events_app in Hin.
      among Hin.
    + intros name. by destruct Hr as [->|[e ->]].
    + done.
  - split; [|split].
    + intros a res Hin. rewrite new_events_with_events in Hin. among Hin.
      by apply Hevs in Hin.
    + intros name. by destruct Hr as [->|[e ->]].
    + intros job. rewrite field_stamped. by rewrite decide_False by (by intros [_ [=]]).
  - split; [|split].
    + intros a res Hin. unfold loaded in Hin. rewrite new_events_with_events in Hin.
      among Hin; [by apply Hevs in Hin|]. injection Hin as -> ->.
      rewrite Hload in He. by injection He as <-.
    + done.
    + intros job. rewrite field_loaded. by rewrite decide_False by (by intros [_ [=]]).
  - rewrite Hload in Hok. discriminate.
Qed.

Lemma unknown_file_type_never_loads_witness :
  (∀ a res, EvLoad a res ∈ new_events Scenario.fresh Scenario.parquet_run.2 →
            res = Raise ValueError) ∧
  (∀ name, Scenario.parquet_run.1 ≠ Ok (RStr ("Success for " +:+ name))) ∧
  (∀ job, field Scenario.parquet_run.2 job "last_modified_time"
          = field Scenario.fresh job "last_modified_time").
Proof.
  apply (unknown_file_type_never_loads Scenario.healthy
           (Scenario.request_for "orders_parquet")
           (Scenario.body_for "orders_parquet") "orders_parquet"
           Scenario.orders_parquet Scenario.fresh
           Scenario.parquet_run.1 Scenario.parquet_run.2).
  - repeat split; vm_compute; reflexivity.
  - discriminate.
  - discriminate.
  - apply surjective_pairing.
Defined.

(** ** The guard, the mode and the selection with state present *)

(** An accepted run has written its attempt stamp, however it ends. *)
Lemma load_accepted_stamps (env : Env) (job_name : string) (config : Config)
    (current_time : Z) (last_modified_time backfill_flag : value) (w : World)
    (r : outcome response) (w' : World) :
  load_accepted env job_name config current_time last_modified_time backfill_flag
    (at_guard job_name w) = (r, w') →
  (∃ rest,
     new_events w w' =
       [EvGet job_name; EvGet job_name;
        EvPut job_name
          (updated_record job_name "last_attempted_grab"
             (VTime (clock env (S (clock_reads w)))) w)] ++ rest) ∧
  field w' job_name "last_attempted_grab"
  = Some (VTime (clock env (S (clock_reads w)))).
Proof.
  rewrite load_accepted_run. cbv zeta.
  destruct (selection env config _ backfill_flag) as [[blobs|e] evs]; cbn [fst snd].
  2: intros [= <- <-]; rewrite new_events_with_events, field_stamped;
    rewrite decide_True by done; eauto.
  destruct (Nat.eqb (len blobs) 0).
  1: intros [= <- <-]; rewrite new_events_with_events, field_stamped;
    rewrite decide_True by done; eauto.
  destruct (schema_of env config) as [schema|e].
  2: intros [= <- <-]; rewrite new_events_with_events, field_stamped;
    rewrite decide_True by done; eauto.
  destruct (load_job_result env _) as [res|e]; intros [= <- <-].
  - rewrite new_events_committed, field_committed, field_stamped.
    rewrite decide_False by (by intros [_ [=]]). rewrite decide_True by done. eauto.
  - rewrite new_events_with_events, field_stamped.
    rewrite decide_True by done. eauto.
Qed.

(** X6. With both timestamps in the job's state, a request that reaches
    the guard is turned away exactly when the last attempt is later than
    the start of the run minus five minutes; a run that starts five
    minutes to the microsecond after the last attempt is accepted. *)
Theorem rejected_iff_within_window (env : Env) (request : Request)
    (d : gmap string value) (job_name : string) (config : Config) (w : World)
    (entity : gmap string value) (watermark attempted : Z)
    (r : outcome response) (w' : World) :
  resolves env request d job_name config →
  datastore w !! job_name = Some entity →
  entity !! "last_modified_time" = Some (VTime watermark) →
  entity !! "last_attempted_grab" = Some (VTime attempted) →
  start_file_load env request w = (r, w') →
  (r = Ok RNone ∧ new_events w w' = [EvGet job_name]) ↔
  attempted > clock env (clock_reads w) - timedelta_minutes 5.
Proof.
  intros Hres Hentity Hwatermark Hattempted.
  rewrite (start_file_load_resolved _ _ _ _ _ _ Hres). cbv zeta.
  destruct Hres as (-> & _). rewrite Hentity.
  cbn [get_last_modified_time last_attempted_of].
  rewrite Hwatermark, Hattempted. cbn [from_option id]. rewrite debounce_timestamps.
  destruct (Z.gtb_spec attempted (clock env (clock_reads w) - timedelta_minutes 5))
    as [Hsoon|Hlate].
  - intros [= <- <-]. unfold at_guard. rewrite new_events_app. split; [lia|done].
  - intros Hrun. apply load_accepted_stamps in Hrun as [[rest Hevents] _].
    rewrite Hevents. split; [|lia]. by intros [_ [=]].
Qed.

Lemma rejected_iff_within_window_witness :
  (Scenario.boundary_run.1 = Ok RNone ∧
   new_events (Scenario.after_run_at (Scenario.T0 + Scenario.minutes 5))
     Scenario.boundary_run.2 = [EvGet "orders"]) ↔
  Scenario.T0 + Scenario.minutes 5
  > clock Scenario.healthy
      (clock_reads (Scenario.after_run_at (Scenario.T0 + Scenario.minutes 5)))
    - timedelta_minutes 5.
Proof.
  apply (rejected_iff_within_window Scenario.healthy Scenario.incremental_request
           Scenario.incremental_body "orders" Scenario.orders
           (Scenario.after_run_at (Scenario.T0 + Scenario.minutes 5))
           (Scenario.ran_at (Scenario.T0 + Scenario.minutes 5))
           (Scenario.T0 + Scenario.minutes 5) (Scenario.T0 + Scenario.minutes 5)).
  - repeat split; vm_compute; reflexivity.
  - vm_compute; reflexivity.
  - vm_compute; reflexivity.
  - vm_compute; reflexivity.
  - apply surjective_pairing.
Defined.

(** X7. With both timestamps in the job's state and the window over, the
    mode follows the request: only the boolean [True] under [backfill]
    gives a backfill, with no listing and the wildcard for the loader;
    anything else (no flag, [False], a number, a string) gives an
    incremental run, which lists the bucket right after the stamp and
    hands the loader the blobs newer than the watermark. *)
Theorem backfill_only_on_True (env : Env) (request : Request)
    (d : gmap string value) (job_name : string) (config : Config) (w : World)
    (entity : gmap string value) (watermark attempted : Z)
    (r : outcome response) (w' : World) :
  resolves env request d job_name config →
  datastore w !! job_name = Some entity →
  entity !! "last_modified_time" = Some (VTime watermark) →
  entity !! "last_attempted_grab" = Some (VTime attempted) →
  (attempted <= clock env (clock_reads w) - timedelta_minutes 5)%Z →
  start_file_load env request w = (r, w') →
  if is_True (default (VBool false) (d !! "backfill"))
  then (∀ bucket prefix, EvListBlobs bucket prefix ∉ new_events w w') ∧
       (∀ a res, EvLoad a res ∈ new_events w w' →
          list_file_names a = Pattern (wildcard config))
  else new_events w w' !! 3%nat
       = Some (EvListBlobs (storage_bucket config) (blob_prefix config)) ∧
       (∀ a res, EvLoad a res ∈ new_events w w' →
          list_file_names a =
          Files (blob_uri (storage_bucket config) <$>
                 filter (newer_than watermark)
                   (bucket_listing env (storage_bucket config) (blob_prefix config)))).
Proof.
  intros Hres Hentity Hwatermark Hattempted Hlate.
  rewrite (start_file_load_resolved _ _ _ _ _ _ Hres). cbv zeta.
  destruct Hres as (-> & _). rewrite Hentity.
  cbn [get_last_modified_time last_attempted_of].
  rewrite Hwatermark, Hattempted. cbn [from_option id]. rewrite debounce_timestamps.
  replace (Z.gtb attempted _) with false by (symmetry; rewrite Z.gtb_ltb; apply Z.ltb_ge; lia).
  rewrite load_accepted_run. cbv zeta. unfold selection.
  destruct (is_True (default (VBool false) (d !! "backfill"))); cbn [fst snd].
  - unfold wildcard at 1. step.
    destruct (schema_of env config) as [schema|e];
      [destruct (load_job_result env _) as [res|e]|];
      intros [= <- <-]; unfold loaded;
      rewrite ?new_events_committed, ?new_events_with_events;
      (split; [intros bucket prefix Hin; among Hin|intros a res' Hin; among Hin]);
      by injection Hin as -> _.
  - rewrite list_blobs_loop_filter. cbn [fmap outcome_fmap app].
    set (files := Files _).
    destruct (Nat.eqb (len files) 0);
      [|destruct (schema_of env config) as [schema|e];
        [destruct (load_job_result env _) as [res|e]|]];
      intros [= <- <-]; unfold loaded;
      rewrite ?new_events_committed, ?new_events_with_events;
      (split; [reflexivity|intros a res' Hin; among Hin]);
      by injection Hin as -> _.
Qed.

Lemma backfill_only_on_True_witness :
  new_events (Scenario.after_run_at Scenario.T0) Scenario.numeric_flag_run.2 !! 3%nat
  = Some (EvListBlobs (storage_bucket Scenario.orders) (blob_prefix Scenario.orders)) ∧
  (∀ a res,
     EvLoad a res
     ∈ new_events (Scenario.after_run_at Scenario.T0) Scenario.numeric_flag_run.2 →
     list_file_names a =
     Files (blob_uri (storage_bucket Scenario.orders) <$>
            filter (newer_than Scenario.T0)
              (bucket_listing Scenario.healthy (storage_bucket Scenario.orders)
                 (blob_prefix Scenario.orders)))).
Proof.
  apply (backfill_only_on_True Scenario.healthy (Scenario.flagged_request (VInt 1))
           (Scenario.flagged_body (VInt 1)) "orders" Scenario.orders
           (Scenario.after_run_at Scenario.T0) (Scenario.ran_at Scenario.T0)
           Scenario.T0 Scenario.T0
           Scenario.numeric_flag_run.1 Scenario.numeric_flag_run.2).
  - repeat split; vm_compute; reflexivity.
  - vm_compute; reflexivity.
  - vm_compute; reflexivity.
  - vm_compute; reflexivity.
  - vm_compute. discriminate.
  - apply surjective_pairing.
Defined.

(** X8. A schema file that cannot be read stops an accepted run after
    the attempt stamp is written: on a first run (no complete state) of a
    job whose [schema_file_location] names a file [get_schema] raises on,
    [start_file_load] raises that exception, the loader is not called,
    and [last_attempted_grab] is left set. *)
Theorem schema_error_after_stamp (env : Env) (request : Request)
    (d : gmap string value) (job_name : string) (config : Config) (w : World)
    (l : string) (e : exn) :
  resolves env request d job_name config →
  datastore w !! job_name = None ∨
  field w job_name "last_modified_time" = None ∨
  field w job_name "last_attempted_grab" = None →
  schema_file_location config = Some l →
  l ≠ "" →
  get_schema env l = Raise e →
  ∃ w',
    start_file_load env request w = (Raise e, w') ∧
    new_events w w' =
      [EvGet job_name; EvGet job_name;
       EvPut job_name
         (updated_record job_name "last_attempted_grab"
            (VTime (clock env (S (clock_reads w)))) w)] ∧
    field w' job_name "last_attempted_grab"
    = Some (VTime (clock env (S (clock_reads w)))).
Proof.
  intros Hres Hmissing Hlocation Hname Hschema.
  apply incomplete_state_not_truthy in Hmissing.
  rewrite (start_file_load_resolved _ _ _ _ _ _ Hres). cbv zeta.
  rewrite (debounce_state_missing _ _ _ _ Hmissing), load_accepted_run. cbv zeta.
  unfold selection. cbn [is_True fst snd len]. unfold wildcard at 1. step.
  unfold schema_of. rewrite Hlocation.
  apply String.eqb_neq in Hname. rewrite Hname. cbn [negb]. rewrite Hschema.
  cbn [fmap outcome_fmap].
  eexists. split; [reflexivity|].
  rewrite new_events_with_events, field_stamped. by rewrite decide_True.
Qed.

Lemma schema_error_after_stamp_witness :
  ∃ w',
    start_file_load Scenario.lost_schema (Scenario.request_for "orders") Scenario.fresh
    = (Raise FileNotFoundError, w') ∧
    new_events Scenario.fresh w' =
      [EvGet "orders"; EvGet "orders";
       EvPut "orders"
         (updated_record "orders" "last_attempted_grab"
            (VTime (clock Scenario.lost_schema (S (clock_reads Scenario.fresh))))
            Scenario.fresh)] ∧
    field w' "orders" "last_attempted_grab"
    = Some (VTime (clock Scenario.lost_schema (S (clock_reads Scenario.fresh)))).
Proof.
  apply (schema_error_after_stamp Scenario.lost_schema (Scenario.request_for "orders")
           (Scenario.body_for "orders") "orders" Scenario.orders_lost_schema
           Scenario.fresh "lost.json" FileNotFoundError).
  - repeat split; vm_compute; reflexivity.
  - left. vm_compute. reflexivity.
  - reflexivity.
  - discriminate.
  - vm_compute. reflexivity.
Defined.

(** ** One run after another *)

Lemma state_of_fields (w : World) (job_name : string) :
  get_last_modified_time (datastore w !! job_name)
  = default VNone (field w job_name "last_modified_time") ∧
  last_attempted_of (datastore w !! job_name)
  = default VNone (field w job_name "last_attempted_grab").
Proof.
  unfold get_last_modified_time, last_attempted_of, field.
  by destruct (datastore w !! job_name).
Qed.

(** The state a run leaves when its loader call returned. *)
Lemma state_after_success (env : Env) (request : Request) (w : World)
    (r : outcome response) (w' : World) (a : LoadArgs) (res : LoadResult) :
  start_file_load env request w = (r, w') →
  EvLoad a (Ok res) ∈ new_events w w' →
  ∃ d job_name config,
    resolves env request d job_name config ∧
    clock_reads w' = S (S (clock_reads w)) ∧
    get_last_modified_time (datastore w' !! job_name)
    = VTime (clock env (clock_reads w)) ∧
    last_attempted_of (datastore w' !! job_name)
    = VTime (clock env (S (clock_reads w))).
Proof.
  intros Hrun Hin.
  destruct (loader_call_inv env _ _ _ _ _ _ Hrun Hin)
    as (d & job_name & config & evs & Hres & _ & _ & -> & ->).
  exists d, job_name, config. split; [exact Hres|]. split; [reflexivity|].
  destruct (state_of_fields
    (committed job_name (clock env (clock_reads w))
       (loaded env job_name w evs a (Ok res))) job_name) as [-> ->].
  rewrite !field_committed, field_loaded.
  rewrite decide_True by done. rewrite decide_False by (by intros [_ [=]]).
  rewrite field_loaded. by rewrite decide_True.
Qed.

(** X9. A successful run arms the guard: when the same request comes
    again and the new run starts less than five minutes after the stamp
    of the successful one, it is turned away with nothing written. *)
Theorem success_arms_debounce (env : Env) (request : Request) (w : World)
    (r : outcome response) (w' : World) (a : LoadArgs) (res : LoadResult) :
  start_file_load env request w = (r, w') →
  EvLoad a (Ok res) ∈ new_events w w' →
  clock env (S (clock_reads w)) > clock env (clock_reads w') - timedelta_minutes 5 →
  ∃ job_name w'',
    start_file_load env request w' = (Ok RNone, w'') ∧
    datastore w'' = datastore w' ∧
    new_events w' w'' = [EvGet job_name].
Proof.
  intros Hrun Hin Hsoon.
  destruct (state_after_success env _ _ _ _ _ _ Hrun Hin)
    as (d & job_name & config & Hres & _ & Hwatermark & Hattempted).
  exists job_name.
  rewrite (start_file_load_resolved _ _ _ _ _ _ Hres). cbv zeta.
  rewrite Hwatermark, Hattempted. destruct Hres as (-> & _).
  rewrite debounce_timestamps.
  replace (Z.gtb _ _) with true by (symmetry; apply Z.gtb_lt; lia).
  eexists. split; [reflexivity|]. split; [reflexivity|].
  unfold at_guard. apply new_events_app.
Qed.

Lemma success_arms_debounce_witness :
  ∃ job_name w'',
    start_file_load Scenario.healthy Scenario.incremental_request
      Scenario.incremental_run.2 = (Ok RNone, w'') ∧
    datastore w'' = datastore Scenario.incremental_run.2 ∧
    new_events Scenario.incremental_run.2 w'' = [EvGet job_name].
Proof.
  apply (success_arms_debounce Scenario.healthy Scenario.incremental_request
           (Scenario.after_run_at Scenario.T0)
           Scenario.incremental_run.1 Scenario.incremental_run.2
           (load_args Scenario.orders
              (Files [blob_uri "landing" Scenario.new_blob]) (Some "[]"))
           {| output_rows := 10; input_files := 1 |}).
  - apply surjective_pairing.
  - apply (list_elem_of_lookup_2 _ 4%nat). vm_compute. reflexivity.
  - vm_compute. reflexivity.
Defined.

Lemma filter_newer_nil (watermark : Z) (blobs : list Blob) :
  (∀ blob, blob ∈ blobs → (int_timestamp (updated blob) <= int_timestamp watermark)%Z) →
  filter (newer_than watermark) blobs = [].
Proof.
  induction blobs as [|blob blobs IH]; intros Hold; [done|].
  rewrite filter_cons, decide_False.
  - apply IH. intros b Hb. apply Hold. by right.
  - unfold newer_than. specialize (Hold blob (list_elem_of_here _ _)). lia.
Qed.

(** X10. Running again finds nothing: when a run has loaded and the same
    request, not asking for a backfill, comes again after the window,
    with no listed blob modified after the second in which the first run
    started, the second run returns the "no new blobs" message, calls no
    loader and leaves the watermark of the first. *)
Theorem rerun_selects_nothing (env : Env) (request : Request) (w : World)
    (r : outcome response) (w' : World) (a : LoadArgs) (res : LoadResult)
    (backfill_flag : value) :
  start_file_load env request w = (r, w') →
  EvLoad a (Ok res) ∈ new_events w w' →
  (clock env (S (clock_reads w)) <= clock env (clock_reads w') - timedelta_minutes 5)%Z →
  request_get (get_json request) "backfill" (VBool false) = Ok backfill_flag →
  is_True backfill_flag = false →
  (∀ bucket prefix blob,
     blob ∈ bucket_listing env bucket prefix →
     (int_timestamp (updated blob) <= int_timestamp (clock env (clock_reads w)))%Z) →
  ∃ job_name w'',
    start_file_load env request w'
    = (Ok (RStr ("There are no new blobs to load for " +:+ job_name)), w'') ∧
    (∀ a' res', EvLoad a' res' ∉ new_events w' w'') ∧
    field w'' job_name "last_modified_time"
    = Some (VTime (clock env (clock_reads w))).
Proof.
  intros Hrun Hin Hlater Hflag Hincremental Hold.
  destruct (state_after_success env _ _ _ _ _ _ Hrun Hin)
    as (d & job_name & config & Hres & _ & Hwatermark & Hattempted).
  exists job_name.
  rewrite (start_file_load_resolved _ _ _ _ _ _ Hres). cbv zeta.
  rewrite Hwatermark, Hattempted. destruct Hres as (Hbody & _).
  rewrite Hbody in Hflag |- *. rewrite debounce_timestamps.
  cbn in Hflag. injection Hflag as Hflag. rewrite Hflag.
  replace (Z.gtb _ _) with false
    by (symmetry; rewrite Z.gtb_ltb; apply Z.ltb_ge; lia).
  rewrite load_accepted_run. cbv zeta. unfold selection. rewrite Hincremental.
  rewrite list_blobs_loop_filter, filter_newer_nil by (intros; by eapply Hold).
  cbn [fst snd fmap outcome_fmap len length app list_fmap Nat.eqb].
  eexists. split; [reflexivity|]. rewrite new_events_with_events.
  split.
  - intros a' res' Hin'. among Hin'.
  - rewrite field_stamped. rewrite decide_False by (by intros [_ [=]]).
    destruct (state_of_fields w' job_name) as [Hfield _].
    rewrite Hwatermark in Hfield.
    unfold at_guard, field. cbn. unfold field in Hfield.
    destruct (datastore w' !! job_name ≫= _) as [v|]; cbn in Hfield; by subst.
Qed.

Lemma rerun_selects_nothing_witness :
  ∃ job_name w'',
    start_file_load Scenario.slow Scenario.incremental_request Scenario.slow_run.2
    = (Ok (RStr ("There are no new blobs to load for " +:+ job_name)), w'') ∧
    (∀ a' res', EvLoad a' res' ∉ new_events Scenario.slow_run.2 w'') ∧
    field w'' job_name "last_modified_time"
    = Some (VTime (clock Scenario.slow
                     (clock_reads (Scenario.after_run_at Scenario.T0)))).
Proof.
  apply (rerun_selects_nothing Scenario.slow Scenario.incremental_request
           (Scenario.after_run_at Scenario.T0)
           Scenario.slow_run.1 Scenario.slow_run.2
           (load_args Scenario.orders
              (Files [blob_uri "landing" Scenario.new_blob]) (Some "[]"))
           {| output_rows := 10; input_files := 1 |} (VBool false)).
  - apply surjective_pairing.
  - apply (list_elem_of_lookup_2 _ 4%nat). vm_compute. reflexivity.
  - vm_compute. discriminate.
  - vm_compute. reflexivity.
  - reflexivity.
  - intros bucket prefix blob Hin. cbn in Hin.
    apply elem_of_cons in Hin as [->|Hin];
      [|apply list_elem_of_singleton in Hin as ->];
      vm_compute; discriminate.
Defined.

(** ** More on the listing *)

(** X11. [list_blobs] reads the watermark's timestamp once per listed
    blob, not before: with a watermark that is not a datetime it returns
    the empty list when nothing is listed and raises [AttributeError]
    as soon as there is a blob. *)
Theorem list_blobs_needs_datetime (env : Env) (bucket_name prefix : string)
    (tsAfter : value) (w : World) :
  (∀ t, tsAfter ≠ VTime t) →
  (list_blobs env bucket_name prefix tsAfter w).1 =
  match bucket_listing env bucket_name prefix with
  | [] => Ok []
  | _ :: _ => Raise AttributeError
  end.
Proof.
  intros Hother. run. cbn.
  destruct (bucket_listing env bucket_name prefix) as [|blob blobs]; [done|].
  cbn. destruct tsAfter; try done. by destruct (Hother t).
Qed.

Lemma list_blobs_needs_datetime_witness :
  (list_blobs Scenario.healthy "landing" "orders/" (VStr "2024-01-01")
     Scenario.fresh).1 =
  match bucket_listing Scenario.healthy "landing" "orders/" with
  | [] => Ok []
  | _ :: _ => Raise AttributeError
  end.
Proof.
  apply (list_blobs_needs_datetime Scenario.healthy "landing" "orders/"
           (VStr "2024-01-01") Scenario.fresh).
  discriminate.
Defined.

Lemma int_timestamp_mono (t1 t2 : Z) :
  (t1 <= t2)%Z → (int_timestamp t1 <= int_timestamp t2)%Z.
Proof. intros Hle. unfold int_timestamp. apply Z.quot_le_mono; lia. Qed.

Lemma filter_newer_sublist (t1 t2 : Z) (blobs : list Blob) :
  (t1 <= t2)%Z →
  filter (newer_than t2) blobs `sublist_of` filter (newer_than t1) blobs.
Proof.
  intros Hle. apply int_timestamp_mono in Hle.
  induction blobs as [|blob blobs IH]; [done|].
  rewrite !filter_cons.
  destruct (decide (newer_than t2 blob)) as [H2|H2];
    destruct (decide (newer_than t1 blob)) as [H1|H1];
    unfold newer_than in H1, H2;
    [by apply sublist_skip|lia|by apply sublist_cons|done].
Qed.

(** X12. A later watermark selects less: of two watermarks, the later
    one gives a selection that is a sublist (same order, some blobs
    dropped) of the selection of the earlier one. *)
Theorem list_blobs_antitone (env : Env) (bucket_name prefix : string)
    (t1 t2 : Z) (w : World) :
  (t1 <= t2)%Z →
  ∃ l1 l2,
    (list_blobs env bucket_name prefix (VTime t1) w).1 = Ok l1 ∧
    (list_blobs env bucket_name prefix (VTime t2) w).1 = Ok l2 ∧
    l2 `sublist_of` l1.
Proof.
  intros Hle. run. cbn. rewrite !list_blobs_loop_filter. cbn.
  eexists _, _. split; [reflexivity|]. split; [reflexivity|].
  by apply fmap_sublist, filter_newer_sublist.
Qed.

Lemma list_blobs_antitone_witness :
  ∃ l1 l2,
    (list_blobs Scenario.healthy "landing" "orders/"
       (VTime (Scenario.T0 - Scenario.minutes 2)) Scenario.fresh).1 = Ok l1 ∧
    (list_blobs Scenario.healthy "landing" "orders/"
       (VTime Scenario.T0) Scenario.fresh).1 = Ok l2 ∧
    l2 `sublist_of` l1.
Proof.
  apply (list_blobs_antitone Scenario.healthy "landing" "orders/"
           (Scenario.T0 - Scenario.minutes 2) Scenario.T0 Scenario.fresh).
  vm_compute. discriminate.
Defined.

(** ** Edges of the store and of the guard *)

(** X19. Writes of [set_entity_item] to different fields of a job do not
    get in each other's way: done in either order they leave the same
    datastore, with both fields set in the job's record. *)
Theorem set_entity_item_commutes (job_name key1 key2 : string) (v1 v2 : value)
    (w : World) :
  key1 ≠ key2 →
  datastore (set_entity_item job_name key2 v2
               (set_entity_item job_name key1 v1 w).2).2
  = datastore (set_entity_item job_name key1 v1
                 (set_entity_item job_name key2 v2 w).2).2 ∧
  field (set_entity_item job_name key2 v2
           (set_entity_item job_name key1 v1 w).2).2 job_name key1 = Some v1 ∧
  field (set_entity_item job_name key2 v2
           (set_entity_item job_name key1 v1 w).2).2 job_name key2 = Some v2.
Proof.
  intros Hne. rewrite !set_entity_item_run. cbn [snd datastore].
  unfold field, updated_record. cbn [datastore].
  rewrite !lookup_insert_eq. cbn [from_option id mbind option_bind].
  rewrite !insert_insert_eq.
  split; [by rewrite insert_insert_ne|].
  split; [rewrite lookup_insert_ne by done|]; apply lookup_insert_eq.
Qed.

Lemma set_entity_item_commutes_witness :
  datastore (set_entity_item "orders" "last_modified_time" (VTime 2)
               (set_entity_item "orders" "last_attempted_grab" (VTime 1)
                  Scenario.fresh).2).2
  = datastore (set_entity_item "orders" "last_attempted_grab" (VTime 1)
                 (set_entity_item "orders" "last_modified_time" (VTime 2)
                    Scenario.fresh).2).2 ∧
  field (set_entity_item "orders" "last_modified_time" (VTime 2)
           (set_entity_item "orders" "last_attempted_grab" (VTime 1)
              Scenario.fresh).2).2 "orders" "last_attempted_grab" = Some (VTime 1) ∧
  field (set_entity_item "orders" "last_modified_time" (VTime 2)
           (set_entity_item "orders" "last_attempted_grab" (VTime 1)
              Scenario.fresh).2).2 "orders" "last_modified_time" = Some (VTime 2).
Proof.
  apply (set_entity_item_commutes "orders" "last_attempted_grab" "last_modified_time"
           (VTime 1) (VTime 2) Scenario.fresh).
  discriminate.
Defined.

(** X20. The guard needs a datetime under [last_attempted_grab]: when
    the job's state holds a watermark and an attempt stamp that is there
    but is not a datetime, a request that reaches the guard makes
    [start_file_load] raise [AttributeError] before anything is
    written. *)
Theorem guard_needs_datetime (env : Env) (request : Request)
    (d : gmap string value) (job_name : string) (config : Config) (w : World)
    (entity : gmap string value) (watermark attempted : value) :
  resolves env request d job_name config →
  datastore w !! job_name = Some entity →
  entity !! "last_modified_time" = Some watermark →
  entity !! "last_attempted_grab" = Some attempted →
  truthy watermark = true →
  truthy attempted = true →
  (∀ t, attempted ≠ VTime t) →
  ∃ w', start_file_load env request w = (Raise AttributeError, w') ∧
        datastore w' = datastore w ∧
        new_events w w' = [EvGet job_name].
Proof.
  intros Hres Hentity Hwatermark Hattempted Hw Ha Hother.
  rewrite (start_file_load_resolved _ _ _ _ _ _ Hres). cbv zeta.
  destruct Hres as (-> & _). rewrite Hentity.
  cbn [get_last_modified_time last_attempted_of].
  rewrite Hwatermark, Hattempted. cbn [from_option id].
  unfold debounce. rewrite Hw, Ha. cbn.
  destruct attempted; try discriminate; try (by destruct (Hother t)).
  all: eexists; (split; [reflexivity|]); (split; [reflexivity|]);
    unfold at_guard; apply new_events_app.
Qed.

Lemma guard_needs_datetime_witness :
  ∃ w', start_file_load Scenario.healthy (Scenario.request_for "orders")
          Scenario.text_stamp
        = (Raise AttributeError, w') ∧
        datastore w' = datastore Scenario.text_stamp ∧
        new_events Scenario.text_stamp w' = [EvGet "orders"].
Proof.
  apply (guard_needs_datetime Scenario.healthy (Scenario.request_for "orders")
           (Scenario.body_for "orders") "orders" Scenario.orders Scenario.text_stamp
           (<["last_modified_time" := VTime Scenario.T0]>
              {["last_attempted_grab" := VStr "2023-11-14"]})
           (VTime Scenario.T0) (VStr "2023-11-14")).
  - repeat split; vm_compute; reflexivity.
  - vm_compute; reflexivity.
  - vm_compute; reflexivity.
  - vm_compute; reflexivity.
  - reflexivity.
  - reflexivity.
  - discriminate.
Defined.

End LoadFileFacts.

(** * Properties of the dispatcher *)

Module StartLoadFacts.

Import StartLoad.

Ltac run :=
  cbv [add_object_task_to_queue request_id_token request_create_task utcnow
       try_except mbind mret St_bind St_ret]; cbn [fst snd].

(** What one call adds to the queue: nothing, or one task that carries
    the name it was called with. *)
Lemma add_object_task_to_queue_queue (env : Env) (job_name : string) (w : World) :
  ∃ added,
    queue (add_object_task_to_queue env job_name w).2 = queue w ++ added ∧
    ∀ entry, entry ∈ added → task_job_name entry.2 = Some job_name.
Proof.
  run. destruct (String.eqb job_name ""); cbn.
  { exists []. split; [by rewrite app_nil_r|]. intros ? Hin. by apply elem_of_nil in Hin. }
  destruct (fetch_id_token env _ _) as [id_token|e]; cbn.
  2: { exists []. split; [by rewrite app_nil_r|]. intros ? Hin. by apply elem_of_nil in Hin. }
  destruct (create_task env _ _ _) as [response|e]; cbn.
  2: { exists []. split; [by rewrite app_nil_r|]. intros ? Hin. by apply elem_of_nil in Hin. }
  eexists [_]. split; [reflexivity|].
  intros entry Hin. apply list_elem_of_singleton in Hin as ->. reflexivity.
Qed.

Lemma gather_queue (env : Env) (job_names : list string) (w : World) :
  ∃ added,
    queue (gather env job_names w).2 = queue w ++ added ∧
    ∀ entry, entry ∈ added →
      ∃ job_name, job_name ∈ job_names ∧ task_job_name entry.2 = Some job_name.
Proof.
  revert w. induction job_names as [|job_name job_names IH]; intros w.
  { exists []. split; [by rewrite app_nil_r|]. intros ? Hin. by apply elem_of_nil in Hin. }
  cbn [gather]. unfold mbind at 1, St_bind.
  destruct (add_object_task_to_queue_queue env job_name w) as (first & Hfirst & Hname).
  destruct (add_object_task_to_queue env job_name w) as [[result|e] w1];
    cbn [snd] in Hfirst.
  - unfold mbind at 1, St_bind.
    destruct (IH w1) as (others & Hothers & Hnames).
    destruct (gather env job_names w1) as [[results|e] w2];
      cbn [snd mret St_ret] in Hothers |- *.
    all: exists (first ++ others); split;
      [by rewrite Hothers, Hfirst, app_assoc|];
      intros entry [Hin|Hin]%elem_of_app;
      [exists job_name; split; [left|by apply Hname]
      |destruct (Hnames entry Hin) as (j & Hj & Hentry);
       exists j; split; [by right|done]].
  - cbn [snd]. exists first. split; [done|].
    intros entry Hin. exists job_name. split; [left|by apply Hname].
Qed.

Lemma strip_character (c : Ascii.ascii) :
  strip (String c EmptyString) = if isspace c then EmptyString else String c EmptyString.
Proof. unfold strip, rstrip. cbn. destruct (isspace c) eqn:Hc; cbn; by rewrite ?Hc. Qed.

(** The configured string is taken apart into its characters. *)
Lemma PULL_DICT_characters (env : Env) (job_name : string) :
  job_name ∈ PULL_DICT env → (String.length job_name ≤ 1)%nat.
Proof.
  unfold PULL_DICT. generalize (CONFIG_JOB_NAMES env) as s.
  induction s as [|c s IH]; cbn [iter_str fmap list_fmap].
  - intros Hin. by apply elem_of_nil in Hin.
  - intros [->|Hin]%elem_of_cons; [|by apply IH].
    rewrite strip_character. destruct (isspace c); cbn; lia.
Qed.

(** X16. Whatever the configuration and the collaborators, a task the
    dispatcher adds to the queue carries a job name of at most one
    character: [PULL_DICT] holds the stripped characters of
    [CONFIG_JOB_NAMES], not names cut out of it. *)
Lemma queued_names_are_characters (env : Env) (w : World) :
  ∃ added,
    queue (bq_start_extraction env w).2 = queue w ++ added ∧
    ∀ entry, entry ∈ added →
      ∃ job_name, task_job_name entry.2 = Some job_name ∧
                  (String.length job_name ≤ 1)%nat.
Proof.
  unfold bq_start_extraction, schedule_objects. unfold mbind, St_bind.
  destruct (gather_queue env (PULL_DICT env) w) as (added & Hqueue & Hnames).
  exists added. split.
  - by destruct (gather env (PULL_DICT env) w) as [[results|e] w1].
  - intros entry Hin. destruct (Hnames entry Hin) as (job_name & Hj & Hentry).
    exists job_name. split; [done|]. by eapply PULL_DICT_characters.
Qed.

(** C3, where the code departs from it. Configured with the single job
    name [shopify_orders], one invocation of the dispatcher reports all
    pulls queued and leaves fourteen tasks in the queue, one for each
    character of the name and carrying that character as its [job_name];
    no task carries [shopify_orders]. *)
Theorem one_task_per_character :
  CONFIG_JOB_NAMES Scenario.deployment = "shopify_orders" ∧
  Scenario.dispatch.1 = Ok "All object pulls queued" ∧
  queued_job_names Scenario.dispatch.2 =
    Some <$> ["s"; "h"; "o"; "p"; "i"; "f"; "y"; "_"; "o"; "r"; "d"; "e"; "r"; "s"] ∧
  Some "shopify_orders" ∉ queued_job_names Scenario.dispatch.2.
Proof.
  split; [reflexivity|]. split; [vm_compute; reflexivity|].
  assert (queued_job_names Scenario.dispatch.2 =
    Some <$> ["s"; "h"; "o"; "p"; "i"; "f"; "y"; "_"; "o"; "r"; "d"; "e"; "r"; "s"])
    as Hnames by (vm_compute; reflexivity).
  split; [exact Hnames|]. rewrite Hnames. cbn.
  intros Hin.
  repeat (apply elem_of_cons in Hin as [Hin|Hin]; [discriminate|]).
  by apply elem_of_nil in Hin.
Qed.

(** ** What one call and one invocation do *)

(** X13. What [add_object_task_to_queue] reports is what it did. For the
    empty name it returns [None] and does nothing. For any other name it
    never raises: it returns the success string only when the token
    and the queue request both succeeded, and then the queue has grown by
    the one task for that name, scheduled at the time of the call; it
    returns the failure string otherwise, and then the queue is what it
    was. *)
Theorem add_object_task_to_queue_reports (env : Env) (job_name : string) (w : World) :
  (job_name = "" ∧ add_object_task_to_queue env job_name w = (Ok None, w)) ∨
  (job_name ≠ "" ∧
   (add_object_task_to_queue env job_name w).1
   = Ok (Some ("Success: Task created for BQ Job - " +:+ job_name)) ∧
   ∃ id_token response,
     fetch_id_token env (token_requests w) (task_url env) = Ok id_token ∧
     queue (add_object_task_to_queue env job_name w).2 =
       queue w ++
       [(queue_path (PROJECT env) (QUEUE_LOCATION env) (QUEUE_NAME env),
         {| http_method := "POST";
            url := task_url env;
            headers := [("Content-type", "application/json");
                        ("Authorization", "bearer " +:+ id_token)];
            payload := [("job_name", job_name)];
            schedule_time := clock env (clock_reads w) |})] ∧
     create_task env (task_requests w)
       (queue_path (PROJECT env) (QUEUE_LOCATION env) (QUEUE_NAME env))
       {| http_method := "POST";
          url := task_url env;
          headers := [("Content-type", "application/json");
                      ("Authorization", "bearer " +:+ id_token)];
          payload := [("job_name", job_name)];
          schedule_time := clock env (clock_reads w) |} = Ok response) ∨
  (job_name ≠ "" ∧
   (add_object_task_to_queue env job_name w).1
   = Ok (Some ("Failure: Task not created for BQ Job - " +:+ job_name)) ∧
   queue (add_object_task_to_queue env job_name w).2 = queue w).
Proof.
  run. destruct (String.eqb_spec job_name "") as [->|Hname]; [by left|right].
  destruct (fetch_id_token env _ _) as [id_token|e] eqn:Htoken; cbn.
  2: by right.
  destruct (create_task env _ _ _) as [response|e] eqn:Hcreate; cbn.
  2: by right.
  left. split; [done|]. split; [done|]. by exists id_token, response.
Qed.

Lemma add_object_task_to_queue_ok (env : Env) (job_name : string) (w : World) :
  ∃ result, (add_object_task_to_queue env job_name w).1 = Ok result.
Proof.
  run. destruct (String.eqb job_name ""); cbn; [eauto|].
  destruct (fetch_id_token env _ _); cbn; [|eauto].
  destruct (create_task env _ _ _); cbn; eauto.
Qed.

(** The calls of [gather] run one after the other, each in the world the
    one before left. *)
Lemma gather_cons (env : Env) (job_name : string) (job_names : list string)
    (w : World) :
  (gather env (job_name :: job_names) w).2
  = (gather env job_names (add_object_task_to_queue env job_name w).2).2 ∧
  ((∃ results, (gather env job_names (add_object_task_to_queue env job_name w).2).1
               = Ok results) →
   ∃ results, (gather env (job_name :: job_names) w).1 = Ok results).
Proof.
  cbn [gather]. unfold mbind, St_bind.
  destruct (add_object_task_to_queue_ok env job_name w) as [result Hresult].
  destruct (add_object_task_to_queue env job_name w) as [first w1].
  cbn [fst snd] in Hresult |- *. subst first.
  destruct (gather env job_names w1) as [[results|e] w2]; cbn; split; eauto.
Qed.

Lemma gather_ok (env : Env) (job_names : list string) (w : World) :
  ∃ results, (gather env job_names w).1 = Ok results.
Proof.
  revert w. induction job_names as [|job_name job_names IH]; intros w.
  - by exists [].
  - apply gather_cons, IH.
Qed.

(** X14. The dispatcher answers [All object pulls queued] whatever
    happens: no failure of the token service or of the queue makes an
    invocation raise or changes its answer. *)
Theorem dispatcher_always_answers (env : Env) (w : World) :
  (bq_start_extraction env w).1 = Ok "All object pulls queued".
Proof.
  unfold bq_start_extraction, schedule_objects. unfold mbind, St_bind.
  destruct (gather_ok env (PULL_DICT env) w) as [results Hresults].
  destruct (gather env (PULL_DICT env) w) as [[results'|e] w']; cbn in *; done.
Qed.

Lemma add_object_task_to_queue_token (env : Env) (job_name : string) (w : World) :
  token_requests (add_object_task_to_queue env job_name w).2 =
  (token_requests w + if decide (job_name ≠ "") then 1 else 0)%nat.
Proof.
  run. destruct (String.eqb_spec job_name "") as [->|Hname]; cbn.
  - rewrite decide_False by (by intros []). lia.
  - rewrite decide_True by done.
    destruct (fetch_id_token env _ _); cbn; [|lia].
    destruct (create_task env _ _ _); cbn; lia.
Qed.

Lemma gather_token_requests (env : Env) (job_names : list string) (w : World) :
  token_requests (gather env job_names w).2 =
  (token_requests w + length (filter (λ job_name, job_name ≠ "") job_names))%nat.
Proof.
  revert w. induction job_names as [|job_name job_names IH]; intros w.
  - cbn. lia.
  - destruct (gather_cons env job_name job_names w) as [-> _].
    rewrite IH, add_object_task_to_queue_token, filter_cons.
    destruct (decide (job_name ≠ "")); cbn; lia.
Qed.

(** X15. Every name gets its try: one invocation asks the token service
    once for each non-empty name of [PULL_DICT], however many of the
    earlier requests failed. *)
Theorem every_name_is_attempted (env : Env) (w : World) :
  token_requests (bq_start_extraction env w).2 =
  (token_requests w + length (attempted_names env))%nat.
Proof.
  unfold bq_start_extraction, schedule_objects, attempted_names.
  rewrite <- (gather_token_requests env). unfold mbind, St_bind.
  by destruct (gather env (PULL_DICT env) w) as [[results|e] w'].
Qed.

Lemma add_object_task_to_queue_addressed (env : Env) (job_name : string) (w : World) :
  ∃ added,
    queue (add_object_task_to_queue env job_name w).2 = queue w ++ added ∧
    ∀ entry, entry ∈ added → addressed env entry.
Proof.
  run. destruct (String.eqb job_name ""); cbn.
  { exists []. split; [by rewrite app_nil_r|]. intros ? Hin. by apply elem_of_nil in Hin. }
  destruct (fetch_id_token env _ _) as [id_token|e]; cbn.
  2: { exists []. split; [by rewrite app_nil_r|]. intros ? Hin. by apply elem_of_nil in Hin. }
  destruct (create_task env _ _ _) as [response|e]; cbn.
  2: { exists []. split; [by rewrite app_nil_r|]. intros ? Hin. by apply elem_of_nil in Hin. }
  eexists [_]. split; [reflexivity|].
  intros entry Hin. apply list_elem_of_singleton in Hin as ->.
  repeat split. by exists id_token.
Qed.

Lemma gather_addressed (env : Env) (job_names : list string) (w : World) :
  ∃ added,
    queue (gather env job_names w).2 = queue w ++ added ∧
    ∀ entry, entry ∈ added → addressed env entry.
Proof.
  revert w. induction job_names as [|job_name job_names IH]; intros w.
  { exists []. split; [by rewrite app_nil_r|]. intros ? Hin. by apply elem_of_nil in Hin. }
  destruct (gather_cons env job_name job_names w) as [-> _].
  destruct (IH (add_object_task_to_queue env job_name w).2) as (others & -> & Hothers).
  destruct (add_object_task_to_queue_addressed env job_name w) as (first & -> & Hfirst).
  exists (first ++ others). split; [by rewrite app_assoc|].
  intros entry [Hin|Hin]%elem_of_app; auto.
Qed.

(** X17. An invocation only adds to the queue, and every task it adds is
    addressed to the orchestrator: filed under the configured queue's
    path, a POST to the [bq-load-file] URL of the project, with a JSON
    content type and an [Authorization] header [bearer <token>]. *)
Theorem tasks_are_addressed (env : Env) (w : World) :
  ∃ added,
    queue (bq_start_extraction env w).2 = queue w ++ added ∧
    ∀ entry, entry ∈ added → addressed env entry.
Proof.
  unfold bq_start_extraction, schedule_objects. unfold mbind, St_bind.
  destruct (gather_addressed env (PULL_DICT env) w) as (added & Hqueue & Haddressed).
  exists added. split; [|done].
  by destruct (gather env (PULL_DICT env) w) as [[results|e] w'].
Qed.





End StartLoadFacts.
